(** * api-perf-budget: percentile estimator, sample reducer, budget comparator

    A shallow embedding of [index.js] and the properties its specification
    states about it.

    Numbers.  The program computes on IEEE-754 binary64 numbers.  Two
    embeddings of them are used, each for the properties it can carry.

    - [Module Binary64] embeds [percentile], the reducer of [measureRoute]
      and the driver on the primitive binary64 floats: every operation is
      rounded as the language rounds it, with signed zeros, infinities
      and [NaN].  What is stated about the value of a percentile, about
      the order of the statistics and about ranks outside [[0,100]] is
      stated on this embedding.

    - [Module JS] embeds a number as an extended rational: a finite value
      in [Q], one of the two infinities, or [NaN], with exact arithmetic
      on finite values.  It carries the properties that do not depend on
      rounding: which requests are issued and counted, what the sort, the
      minimum and the maximum are, what is [undefined] or [NaN] on an
      empty sample, which budget entries are violations, what is copied
      and what is shared, how the report is laid out.  Equality of finite
      numbers there is [Qeq] (written [==]). *)

From Stdlib Require Import QArith Qround ZArith List Bool Lia Lqa Permutation Sorted.
From Stdlib Require Floats.
From stdpp Require Import gmap strings.

Import ListNotations.
Local Open Scope Q_scope.

(** ** JavaScript values *)

Module JS.

(** The Number type: finite rationals, [Infinity] / [-Infinity], [NaN]. *)
Inductive number : Type :=
| Fin (q : Q)
| Inf (negative : bool)
| NaN.

(** The values the program manipulates: numbers, [undefined], and the
    function and object members every object inherits from
    [Object.prototype] (whose conversion to a number is [NaN]). *)
Inductive value : Type :=
| VNumber (x : number)
| VUndefined
| VObject.

(** [ToNumber]. *)
Definition to_number (v : value) : number :=
  match v with
  | VNumber x => x
  | VUndefined => NaN
  | VObject => NaN
  end.

Definition Qnegb (q : Q) : bool := negb (Qle_bool 0 q).
Definition Qzerob (q : Q) : bool := Qeq_bool q 0.

(** [x + y] on numbers. *)
Definition add (x y : number) : number :=
  match x, y with
  | NaN, _ | _, NaN => NaN
  | Fin a, Fin b => Fin (a + b)
  | Inf s, Fin _ => Inf s
  | Fin _, Inf s => Inf s
  | Inf s, Inf t => if Bool.eqb s t then Inf s else NaN
  end.

(** [x * y] on numbers. *)
Definition mul (x y : number) : number :=
  match x, y with
  | NaN, _ | _, NaN => NaN
  | Fin a, Fin b => Fin (a * b)
  | Inf s, Fin b => if Qzerob b then NaN else Inf (xorb s (Qnegb b))
  | Fin a, Inf s => if Qzerob a then NaN else Inf (xorb s (Qnegb a))
  | Inf s, Inf t => Inf (xorb s t)
  end.

(** [x / y] on numbers; a zero divisor is the positive zero. *)
Definition div (x y : number) : number :=
  match x, y with
  | NaN, _ | _, NaN => NaN
  | Fin a, Fin b =>
      if Qzerob b then (if Qzerob a then NaN else Inf (Qnegb a))
      else Fin (a / b)
  | Fin _, Inf _ => Fin 0
  | Inf s, Fin b => Inf (xorb s (Qnegb b))
  | Inf _, Inf _ => NaN
  end.

(** [x > y] on numbers: false as soon as one side is [NaN]. *)
Definition gt (x y : number) : bool :=
  match x, y with
  | NaN, _ | _, NaN => false
  | Fin a, Fin b => negb (Qle_bool a b)
  | Inf s, Fin _ => negb s
  | Fin _, Inf s => s
  | Inf s, Inf t => negb s && t
  end.

(** The operators applied to arbitrary values convert with [ToNumber]. *)
Definition vmul (v w : value) : number := mul (to_number v) (to_number w).
Definition vgt (v : value) (y : number) : bool := gt (to_number v) y.

(** Two values denote the same value: the same finite number up to [==],
    the same infinity, both [NaN], both [undefined]. *)
Definition same_number (x y : number) : Prop :=
  match x, y with
  | Fin a, Fin b => a == b
  | Inf s, Inf t => s = t
  | NaN, NaN => True
  | _, _ => False
  end.

Definition same_value (v w : value) : Prop :=
  match v, w with
  | VNumber x, VNumber y => same_number x y
  | VUndefined, VUndefined => True
  | VObject, VObject => True
  | _, _ => False
  end.

(** An array of numbers and its [.length]. *)
Definition array := list Q.

Definition len (a : array) : Q := inject_Z (Z.of_nat (length a)).

(** [a[i]] for an integral number [i]: the element, or [undefined] when
    [i] is negative or not below the length. *)
Definition get (a : array) (i : Z) : value :=
  if (i <? 0)%Z then VUndefined
  else match nth_error a (Z.to_nat i) with
       | Some x => VNumber (Fin x)
       | None => VUndefined
       end.

(** [a.at(i)]: a negative [i] counts from the end. *)
Definition at_ (a : array) (i : Z) : value :=
  let k := if (i <? 0)%Z then (Z.of_nat (length a) + i)%Z else i in
  get a k.

End JS.

Import JS.

(** ** The percentile estimator *)

(** [percentile(sortedValues, p)], index.js lines 1-16. *)
Definition percentile (sortedValues : array) (p : Q) : value :=
  if Nat.eqb (length sortedValues) 0 then VNumber (Fin 0)
  else
    let index := (p / 100) * (len sortedValues - 1) in
    let lower := Qfloor index in
    let upper := Qceiling index in
    if (lower =? upper)%Z then get sortedValues lower
    else
      let weight := index - inject_Z lower in
      VNumber (add (vmul (get sortedValues lower) (VNumber (Fin (1 - weight))))
                   (vmul (get sortedValues upper) (VNumber (Fin weight)))).

(** The estimator as the specification words it: linear interpolation
    between closest ranks.  [rank S i] is the order statistic [S[i]]. *)
Definition rank (S : list Q) (i : Z) : Q := nth (Z.to_nat i) S 0.

Definition interpolate (S : list Q) (idx : Q) : Q :=
  let lo := Qfloor idx in
  let hi := Qceiling idx in
  if (lo =? hi)%Z then rank S lo
  else rank S lo + (idx - inject_Z lo) * (rank S hi - rank S lo).

Definition percentile_ref (S : list Q) (p : Q) : Q :=
  match S with
  | [] => 0
  | _ :: _ =>
      let n := inject_Z (Z.of_nat (length S)) in
      let idx := (p / 100) * (n - 1) in
      interpolate S idx
  end.

(** A sorted ascending sequence. *)
Definition ascending (S : list Q) : Prop := Sorted Qle S.

(** The fractional index of rank [p], line 6. *)
Definition index_of (S : list Q) (p : Q) : Q := (p / 100) * (len S - 1).

(** ** Arrays: copy-and-sort *)

(** [[...a].sort(compare)]: a stable sort driven by the sign of
    [compare(x, y)]; [x] is placed before the first [y] with
    [compare(x, y) <= 0]. *)
Fixpoint insert (compare : Q -> Q -> Q) (x : Q) (l : list Q) : list Q :=
  match l with
  | [] => [x]
  | y :: l' =>
      if Qle_bool (compare x y) 0 then x :: l else y :: insert compare x l'
  end.

Fixpoint sort (compare : Q -> Q -> Q) (l : list Q) : list Q :=
  match l with
  | [] => []
  | x :: l' => insert compare x (sort compare l')
  end.

(** ** The measurement driver *)

Record request : Type := {
  req_url : string;
  req_method : string;
  req_headers : option (list (string * string));
  req_body : option string
}.

(** What the network does with one [fetch]: the promise resolves or
    rejects, after [elapsed] milliseconds. *)
Record response : Type := {
  rejected : bool;
  elapsed : Q
}.

(** The environment: the outcome of the [k]-th request issued. *)
Definition network := nat -> request -> response.

(** [measureSingleRequest], lines 65-77.  The [catch {}] swallows a
    rejection, and the elapsed time is returned on both paths. *)
Definition measureSingleRequest (net : network) (k : nat)
    (url method : string) (headers : option (list (string * string)))
    (body : option string) : Q :=
  let outcome :=
    net k {| req_url := url;
             req_method := method;
             req_headers := headers;
             req_body := if String.eqb method "GET" || String.eqb method "HEAD"
                         then None else body |} in
  if rejected outcome then elapsed outcome else elapsed outcome.

Module Measurements.

(** The object literal of lines 51-62. *)
Record t : Type := {
  p50 : value;
  p75 : value;
  p90 : value;
  p95 : value;
  p99 : value;
  min : value;
  max : value;
  mean : value;
  median : value;
  count : nat
}.

End Measurements.

(** Lines 48-62 of [measureRoute]: sort a copy of the sample and derive
    the statistics. *)
Definition reduce_sample (latencies : list Q) : Measurements.t :=
  let sorted := sort (fun a b => a - b) latencies in
  let sum := fold_left (fun a b => a + b) sorted 0 in
  {| Measurements.p50 := percentile sorted 50;
     Measurements.p75 := percentile sorted 75;
     Measurements.p90 := percentile sorted 90;
     Measurements.p95 := percentile sorted 95;
     Measurements.p99 := percentile sorted 99;
     Measurements.min := get sorted 0;
     Measurements.max := at_ sorted (-1);
     Measurements.mean := VNumber (div (Fin sum) (Fin (len sorted)));
     Measurements.median := percentile sorted 50;
     Measurements.count := length sorted |}.

(** What the literal of lines 51-62 evaluates to on the empty sample. *)
Definition empty_bundle : Measurements.t :=
  {| Measurements.p50 := VNumber (Fin 0);
     Measurements.p75 := VNumber (Fin 0);
     Measurements.p90 := VNumber (Fin 0);
     Measurements.p95 := VNumber (Fin 0);
     Measurements.p99 := VNumber (Fin 0);
     Measurements.min := VUndefined;
     Measurements.max := VUndefined;
     Measurements.mean := VNumber NaN;
     Measurements.median := VNumber (Fin 0);
     Measurements.count := 0 |}.

Record options : Type := {
  requests : option Z;
  concurrency : option Z;
  method : option string;
  headers : option (list (string * string));
  body : option string
}.

Section Driver.

Variable net : network.
Variables (url method : string).
Variables (headers : option (list (string * string))) (body : option string).

(** The inner loop, lines 39-41, and [Promise.all]: [size] requests are
    issued, numbered from [issued] on; their timings come back in the
    order of issue. *)
Fixpoint batch (issued size : nat) : list Q :=
  match size with
  | O => []
  | S size' =>
      measureSingleRequest net issued url method headers body
        :: batch (S issued) size'
  end.

(** The outer loop, lines 35-46, with [todo] iterations left from
    batch number [i]. *)
Fixpoint batches_from (requestCount concurrency : Z) (todo : nat) (i : Z)
    (latencies : list Q) : list Q :=
  match todo with
  | O => latencies
  | S todo' =>
      let batchSize := Z.min concurrency (requestCount - i * concurrency) in
      let results := batch (length latencies) (Z.to_nat batchSize) in
      batches_from requestCount concurrency todo' (i + 1) (latencies ++ results)
  end.

End Driver.

(** [Math.ceil(requestCount / concurrency)], line 33.  A zero [concurrency]
    gives [Infinity] when [requestCount] is positive: the loop of line 35
    never ends.  It gives [NaN] or [-Infinity] otherwise, and the loop
    body never runs. *)
Definition batch_count (requestCount concurrency : Z) : option Z :=
  if (concurrency =? 0)%Z then
    if (0 <? requestCount)%Z then None else Some 0%Z
  else Some (Qceiling (inject_Z requestCount / inject_Z concurrency)).

(** [measureRoute(url, options)], lines 22-63; [None] when the call never
    returns. *)
Definition measureRoute (net : network) (url : string) (o : options)
    : option Measurements.t :=
  let requestCount := default 100%Z (requests o) in
  let concurrency := default 10%Z (concurrency o) in
  let method := default "GET"%string (method o) in
  match batch_count requestCount concurrency with
  | None => None
  | Some batches =>
      let latencies :=
        batches_from net url method (headers o) (body o)
          requestCount concurrency (Z.to_nat batches) 0 [] in
      Some (reduce_sample latencies)
  end.

(** The batch sizes as the specification words them:
    [min(concurrency, requests - i * concurrency)] for each batch [i] of
    the [ceil(requests / concurrency)] batches. *)
Definition batch_sizes (requests concurrency : Z) : list Z :=
  List.map
    (fun i : nat => Z.min concurrency (requests - Z.of_nat i * concurrency))
    (seq 0 (Z.to_nat (Qceiling (inject_Z requests / inject_Z concurrency)))).

Definition total (l : list Z) : Z := fold_right Z.add 0%Z l.

(** A network on which every other request is rejected, and a run of
    seven requests, three at a time. *)
Definition example_network : network :=
  fun k _ =>
    {| rejected := Nat.even k;
       elapsed := inject_Z (Z.of_nat ((k * 7) mod 5)) + (3 # 2) |}.

Definition example_options : options :=
  {| requests := Some 7%Z;
     concurrency := Some 3%Z;
     method := None;
     headers := None;
     body := None |}.

(** ** The budget comparator *)

(** The measurements object: the own properties of the literal of lines
    51-62, in the order they are written. *)
Definition own_properties (m : Measurements.t) : list (string * value) :=
  [ ("p50"%string, Measurements.p50 m);
    ("p75"%string, Measurements.p75 m);
    ("p90"%string, Measurements.p90 m);
    ("p95"%string, Measurements.p95 m);
    ("p99"%string, Measurements.p99 m);
    ("min"%string, Measurements.min m);
    ("max"%string, Measurements.max m);
    ("mean"%string, Measurements.mean m);
    ("median"%string, Measurements.median m);
    ("count"%string,
     VNumber (Fin (inject_Z (Z.of_nat (Measurements.count m))))) ].

(** The members an object literal inherits from [Object.prototype]. *)
Definition prototype_properties : list string :=
  [ "constructor"; "__defineGetter__"; "__defineSetter__"; "hasOwnProperty";
    "__lookupGetter__"; "__lookupSetter__"; "isPrototypeOf";
    "propertyIsEnumerable"; "toString"; "valueOf"; "__proto__";
    "toLocaleString" ]%string.

Definition assoc {A : Type} (key : string) (l : list (string * A)) : option A :=
  match List.find (fun kv => String.eqb key (fst kv)) l with
  | Some kv => Some (snd kv)
  | None => None
  end.

(** [measurements[metric]], line 83. *)
Definition get_property (m : Measurements.t) (metric : string) : value :=
  match assoc metric (own_properties m) with
  | Some v => v
  | None =>
      if existsb (String.eqb metric) prototype_properties then VObject
      else VUndefined
  end.

Definition is_undefined (v : value) : bool :=
  match v with VUndefined => true | _ => false end.

Record Violation : Type := {
  metric : string;
  actual : value;
  limit : number
}.

Record BudgetCheckResult : Type := {
  passed : bool;
  violations : list Violation
}.

(** A budget is given by [Object.entries(budget)]: its keys and limits in
    iteration order. *)
Abbreviation Budget := (list (string * number)).

(** The body of the loop of lines 82-92 for one entry. *)
Definition check_entry (measurements : Measurements.t)
    (violations : list Violation) (entry : string * number) : list Violation :=
  let '(metric, limit) := entry in
  let actual := get_property measurements metric in
  if negb (is_undefined actual) && vgt actual limit
  then violations ++ [ {| metric := metric; actual := actual; limit := limit |} ]
  else violations.

(** [checkBudget(measurements, budget)], lines 79-98. *)
Definition checkBudget (measurements : Measurements.t) (budget : Budget)
    : BudgetCheckResult :=
  let violations := fold_left (check_entry measurements) budget [] in
  {| passed := Nat.eqb (length violations) 0;
     violations := violations |}.

(** "The bundle's value strictly exceeds the limit", on the extended
    number line; nothing that is not a number exceeds anything, and [NaN]
    neither exceeds nor is exceeded. *)
Definition exceeds (actual : value) (limit : number) : Prop :=
  match actual with
  | VNumber (Fin a) =>
      match limit with
      | Fin l => l < a
      | Inf negative => negative = true
      | NaN => False
      end
  | VNumber (Inf false) =>
      match limit with
      | Fin _ => True
      | Inf negative => negative = true
      | NaN => False
      end
  | _ => False
  end.

#[global] Instance exceeds_dec actual limit : Decision (exceeds actual limit).
Proof.
  destruct actual as [[a | [] |] | |], limit as [l | [] |]; simpl;
    try (left; done); try (right; intros H; done).
  destruct (Qlt_le_dec l a) as [H | H]; [left; exact H | right].
  intros H'. apply (Qlt_not_le _ _ H'). exact H.
Defined.

(** The violation an entry of the budget gives rise to. *)
Definition violation_of (m : Measurements.t) (entry : string * number)
    : Violation :=
  {| metric := fst entry;
     actual := get_property m (fst entry);
     limit := snd entry |}.

(** The names of the fields of a bundle. *)
Definition bundle_fields : list string :=
  [ "p50"; "p75"; "p90"; "p95"; "p99"; "min"; "max"; "mean"; "median";
    "count" ]%string.

(** ** The budget registry: objects on a heap *)

Module Heap.

(** A property holds a number or a reference to another object. *)
Inductive property : Type :=
| PNumber (x : number)
| PRef (l : positive).

(** An object is the list of its own enumerable properties, in order. *)
Abbreviation object := (list (string * property)).

Abbreviation heap := (gmap positive object).

(** [o[key] = v] on the property list: overwrite in place, or append. *)
Definition assign (key : string) (v : property) (o : object) : object :=
  if existsb (fun kv => String.eqb key (fst kv)) o
  then List.map (fun kv => if String.eqb key (fst kv) then (key, v) else kv) o
  else o ++ [(key, v)].

(** [delete o[key]]. *)
Definition remove (key : string) (o : object) : object :=
  List.filter (fun kv => negb (String.eqb key (fst kv))) o.

(** The two mutations of the object at [l]. *)
Definition set_property (h : heap) (l : positive) (key : string)
    (v : property) : heap :=
  alter (assign key v) l h.

Definition delete_property (h : heap) (l : positive) (key : string) : heap :=
  alter (remove key) l h.

(** [m[route][metric] = x]: a write to the nested record reached through
    the map at [l]. *)
Definition set_nested (h : heap) (l : positive) (route metric : string)
    (x : number) : heap :=
  match h !! l with
  | Some o =>
      match assoc route o with
      | Some (PRef r) => set_property h r metric (PNumber x)
      | _ => h
      end
  | None => h
  end.

(** What a caller observes through the map at [l]: every route with the
    entries of its budget record. *)
Definition read_budget (h : heap) (v : property)
    : option (list (string * property)) :=
  match v with
  | PRef r => h !! r
  | PNumber _ => None
  end.

Definition observe (h : heap) (l : positive)
    : option (list (string * option (list (string * property)))) :=
  match h !! l with
  | Some o => Some (List.map (fun kv => (fst kv, read_budget h (snd kv))) o)
  | None => None
  end.

End Heap.

Import Heap.

(** [defineBudget(budgets)], lines 18-20.  The spread [{...budgets}]
    allocates one new object and copies the own properties of [budgets]
    into it; a property that holds a reference is copied as the
    reference. *)
Definition defineBudget (h : heap) (budgets : positive) : heap * positive :=
  let copy : object := default [] (h !! budgets) in
  let l := fresh (dom h) in
  (<[l := copy]> h, l).

(** A registry with two routes, as in the usage example. *)
Definition example_heap : heap :=
  <[3%positive := [("p95"%string, PNumber (Fin 100))]]>
  (<[2%positive := [("p95"%string, PNumber (Fin 200));
                    ("p99"%string, PNumber (Fin 500))]]>
  (<[1%positive := [("/api/users"%string, PRef 2);
                    ("/api/checkout"%string, PRef 3)]]> ∅)).

(** ** The report formatter *)

Module RouteResult.

(** One value of the [routeResults] object. *)
Record t : Type := {
  measurements : Measurements.t;
  budget : Budget;
  result : BudgetCheckResult
}.

End RouteResult.

(** The line feed, ["\n"] in the source. *)
Definition newline : string := String (Ascii.ascii_of_nat 10) EmptyString.

(** [s.repeat(n)]. *)
Fixpoint repeat_string (s : string) (n : nat) : string :=
  match n with
  | O => EmptyString
  | S n' => String.append s (repeat_string s n')
  end.

(** The three lines the report starts with, lines 101-105. *)
Definition report_header : list string :=
  [ "API Performance Budget Report"%string; repeat_string "=" 70;
    EmptyString ].

Section Report.

(** The two conversions of a number to text that the templates use are
    built-ins of the language and are left open: [toFixed1 x] stands for
    [x.toFixed(1)] and [toString x] for the text of [x] in a template. *)
Variable toFixed1 : number -> string.
Variable toString : number -> string.

(** [v.toFixed(1)] on a value: a [TypeError], here [None], unless [v] is
    a number. *)
Definition to_fixed (v : value) : option string :=
  match v with
  | VNumber x => Some (toFixed1 x)
  | VUndefined => None
  | VObject => None
  end.

(** The template of line 111. *)
Definition percentile_line (m : Measurements.t) : option string :=
  match to_fixed (Measurements.p50 m), to_fixed (Measurements.p75 m),
        to_fixed (Measurements.p90 m), to_fixed (Measurements.p95 m),
        to_fixed (Measurements.p99 m) with
  | Some a, Some b, Some c, Some d, Some e =>
      Some (String.concat EmptyString
              [ "  p50="; a; "ms  p75="; b; "ms  p90="; c; "ms  p95="; d;
                "ms  p99="; e; "ms" ]%string)
  | _, _, _, _, _ => None
  end.

(** The template of line 116. *)
Definition violation_line (v : Violation) : option string :=
  match to_fixed (actual v) with
  | Some a =>
      Some (String.concat EmptyString
              [ "  VIOLATION: "; metric v; " = "; a; "ms (limit: ";
                toString (limit v); "ms)" ]%string)
  | None => None
  end.

(** The loop of lines 115-117 over the violations of one route. *)
Fixpoint push_violations (vs : list Violation) (lines : list string)
    : option (list string) :=
  match vs with
  | [] => Some lines
  | v :: vs' =>
      match violation_line v with
      | Some l => push_violations vs' (lines ++ [l])
      | None => None
      end
  end.

(** The template of line 110. *)
Definition status_line (route : string) (rr : RouteResult.t) : string :=
  let status := if passed (RouteResult.result rr) then "PASS" else "FAIL" in
  String.concat EmptyString [ "["; status; "] "; route ]%string.

(** The body of the loop of lines 107-121 for one route. *)
Definition push_route (lines : list string) (entry : string * RouteResult.t)
    : option (list string) :=
  let '(route, rr) := entry in
  match percentile_line (RouteResult.measurements rr) with
  | Some pl =>
      match push_violations (violations (RouteResult.result rr))
              (lines ++ [status_line route rr; pl]) with
      | Some lines' => Some (lines' ++ [EmptyString])
      | None => None
      end
  | None => None
  end.

(** The array [lines] when the loop of lines 107-121 ends; [None] when a
    conversion throws. *)
Fixpoint push_routes (entries : list (string * RouteResult.t))
    (lines : list string) : option (list string) :=
  match entries with
  | [] => Some lines
  | entry :: entries' =>
      match push_route lines entry with
      | Some lines' => push_routes entries' lines'
      | None => None
      end
  end.

(** [formatResults(routeResults)], lines 100-124, on the entries of
    [routeResults] in iteration order. *)
Definition formatResults (routeResults : list (string * RouteResult.t))
    : option string :=
  match push_routes routeResults report_header with
  | Some lines => Some (String.concat newline lines)
  | None => None
  end.

(** The lines one route contributes, when its conversions succeed. *)
Definition route_lines (entry : string * RouteResult.t)
    : option (list string) :=
  match percentile_line (RouteResult.measurements (snd entry)),
        mapM violation_line (violations (RouteResult.result (snd entry))) with
  | Some pl, Some vls =>
      Some ([status_line (fst entry) (snd entry); pl] ++ vls ++ [EmptyString])
  | _, _ => None
  end.

End Report.

Definition is_number (v : value) : Prop := exists x : number, v = VNumber x.

(** A route the formatter can print: its five percentiles and the
    [actual] of each of its violations are numbers. *)
Definition printable (rr : RouteResult.t) : Prop :=
  is_number (Measurements.p50 (RouteResult.measurements rr))
  /\ is_number (Measurements.p75 (RouteResult.measurements rr))
  /\ is_number (Measurements.p90 (RouteResult.measurements rr))
  /\ is_number (Measurements.p95 (RouteResult.measurements rr))
  /\ is_number (Measurements.p99 (RouteResult.measurements rr))
  /\ Forall (fun v => is_number (actual v))
       (violations (RouteResult.result rr)).

(** A stand-in for the two built-in conversions, for concrete runs. *)
Definition example_format (x : number) : string :=
  match x with
  | Fin _ => "finite"
  | Inf _ => "Infinity"
  | NaN => "NaN"
  end.

(** The block of lines that one route contributes to the report, written
    out: the status line, the line of the five percentiles, one line per
    violation in order, and an empty line. *)
Definition block_layout (toFixed1 toString : number -> string)
    (entry : string * RouteResult.t) (block : list string) : Prop :=
  let route := fst entry in
  let m := RouteResult.measurements (snd entry) in
  let r := RouteResult.result (snd entry) in
  exists (x50 x75 x90 x95 x99 : number) (violation_lines : list string),
    Measurements.p50 m = VNumber x50
    /\ Measurements.p75 m = VNumber x75
    /\ Measurements.p90 m = VNumber x90
    /\ Measurements.p95 m = VNumber x95
    /\ Measurements.p99 m = VNumber x99
    /\ Forall2
         (fun (v : Violation) (line : string) =>
            exists x : number,
              actual v = VNumber x
              /\ line = ("  VIOLATION: " ++ metric v ++ " = " ++ toFixed1 x
                         ++ "ms (limit: " ++ toString (limit v)
                         ++ "ms)")%string)
         (violations r) violation_lines
    /\ block
       = [ ((if passed r then "[PASS] " else "[FAIL] ") ++ route)%string;
           ("  p50=" ++ toFixed1 x50 ++ "ms  p75=" ++ toFixed1 x75
            ++ "ms  p90=" ++ toFixed1 x90 ++ "ms  p95=" ++ toFixed1 x95
            ++ "ms  p99=" ++ toFixed1 x99 ++ "ms")%string ]
         ++ violation_lines ++ [EmptyString].

(** Two routes to report: one over its budget on [p95], one within its
    budget; and the report of them, line by line, under
    [example_format]. *)
Definition example_bundle : Measurements.t :=
  {| Measurements.p50 := VNumber (Fin 120);
     Measurements.p75 := VNumber (Fin 180);
     Measurements.p90 := VNumber (Fin 220);
     Measurements.p95 := VNumber (Fin 250);
     Measurements.p99 := VNumber (Inf false);
     Measurements.min := VNumber (Fin 80);
     Measurements.max := VNumber (Inf false);
     Measurements.mean := VNumber (Inf false);
     Measurements.median := VNumber (Fin 120);
     Measurements.count := 100 |}.

Definition example_routes : list (string * RouteResult.t) :=
  [ ("/api/users"%string,
     {| RouteResult.measurements := example_bundle;
        RouteResult.budget := [("p95"%string, Fin 200); ("p50"%string, Fin 150)];
        RouteResult.result :=
          checkBudget example_bundle
            [("p95"%string, Fin 200); ("p50"%string, Fin 150)] |});
    ("/health"%string,
     {| RouteResult.measurements := example_bundle;
        RouteResult.budget := [("p50"%string, Fin 150)];
        RouteResult.result :=
          checkBudget example_bundle [("p50"%string, Fin 150)] |}) ].

Definition example_report : string :=
  String.concat newline
    [ "API Performance Budget Report";
      "======================================================================";
      EmptyString;
      "[FAIL] /api/users";
      "  p50=finitems  p75=finitems  p90=finitems  p95=finitems  p99=Infinityms";
      "  VIOLATION: p95 = finitems (limit: finitems)";
      EmptyString;
      "[PASS] /health";
      "  p50=finitems  p75=finitems  p90=finitems  p95=finitems  p99=Infinityms";
      EmptyString ]%string.

(** ** The arithmetic as the program computes it: binary64 *)

(** The percentile estimator and the reducer once more, on IEEE-754
    binary64 numbers (the primitive floats), with the rounding, the signed
    zeros, the infinities and [NaN] of the language. *)
Module Binary64.

Import Floats.
Local Open Scope float_scope.
#[local] Set Warnings "-inexact-float".

(** The values the estimator and the reducer produce: numbers and
    [undefined]. *)
Inductive value : Type :=
| VNumber (x : float)
| VUndefined.

(** [ToNumber]. *)
Definition to_number (v : value) : float :=
  match v with
  | VNumber x => x
  | VUndefined => nan
  end.

(** The number that an integer denotes (exact below [2^53]). *)
Definition of_Z (z : Z) : float :=
  if (z <? 0)%Z then - of_uint63 (Uint63.of_Z (- z))
  else of_uint63 (Uint63.of_Z z).

(** [Math.floor(x)].  A finite [x] is [(-1)^s * m * 2^e]; it is integral
    when [0 <= e] or [2^(-e)] divides [m].  Infinities, [NaN] and the
    zeros are returned as they are. *)
Definition floor (x : float) : float :=
  match Prim2SF x with
  | S754_finite s m e =>
      if (0 <=? e)%Z then x
      else
        let q := (Z.pos m / 2 ^ (- e))%Z in
        if (Z.pos m mod 2 ^ (- e) =? 0)%Z then x
        else if s then of_Z (- (q + 1)) else of_Z q
  | _ => x
  end.

(** [Math.ceil(x)]; a negative [x] above [-1] gives [-0]. *)
Definition ceil (x : float) : float :=
  match Prim2SF x with
  | S754_finite s m e =>
      if (0 <=? e)%Z then x
      else
        let q := (Z.pos m / 2 ^ (- e))%Z in
        if (Z.pos m mod 2 ^ (- e) =? 0)%Z then x
        else if s then (if (q =? 0)%Z then neg_zero else of_Z (- q))
             else of_Z (q + 1)
  | _ => x
  end.

(** The array index that a number used as a property key names: [+0] and
    [-0] name index 0, a non-negative integral number names itself, and
    any other number (a fraction, a negative number, an infinity, [NaN])
    names no index. *)
Definition array_index (x : float) : option Z :=
  match Prim2SF x with
  | S754_zero _ => Some 0%Z
  | S754_finite false m e =>
      if (0 <=? e)%Z then Some (Z.pos m * 2 ^ e)%Z
      else if (Z.pos m mod 2 ^ (- e) =? 0)%Z
           then Some (Z.pos m / 2 ^ (- e))%Z
           else None
  | _ => None
  end.

(** [i] names an element of [a]. *)
Definition in_range (a : list float) (i : float) : bool :=
  match array_index i with
  | Some z => (z <? Z.of_nat (length a))%Z
  | None => false
  end.

(** [a[i]]: the element when [i] names one, [undefined] otherwise. *)
Definition get (a : list float) (i : float) : value :=
  match array_index i with
  | Some z =>
      match nth_error a (Z.to_nat z) with
      | Some x => VNumber x
      | None => VUndefined
      end
  | None => VUndefined
  end.

(** [a.at(i)] for an integer [i]: a negative [i] counts from the end. *)
Definition at_ (a : list float) (i : Z) : value :=
  let k := if (i <? 0)%Z then (Z.of_nat (length a) + i)%Z else i in
  if (k <? 0)%Z then VUndefined
  else match nth_error a (Z.to_nat k) with
       | Some x => VNumber x
       | None => VUndefined
       end.

(** [a.length]. *)
Definition len (a : list float) : float := of_Z (Z.of_nat (length a)).

(** [percentile(sortedValues, p)], index.js lines 1-16. *)
Definition percentile (sortedValues : list float) (p : float) : value :=
  if Nat.eqb (length sortedValues) 0 then VNumber 0
  else
    let index := (p / 100) * (len sortedValues - 1) in
    let lower := floor index in
    let upper := ceil index in
    if lower =? upper then get sortedValues lower
    else
      let weight := index - lower in
      VNumber (to_number (get sortedValues lower) * (1 - weight)
               + to_number (get sortedValues upper) * weight).

(** The estimator as the specification words it, evaluated in binary64:
    [0] on the empty sequence; otherwise, with [idx = (p/100)*(n-1)],
    [lo = floor(idx)] and [hi = ceil(idx)], [S[lo]] when [lo == hi] and
    [S[lo] + (idx - lo) * (S[hi] - S[lo])] otherwise. *)
Definition percentile_ref (S : list float) (p : float) : value :=
  match S with
  | [] => VNumber 0
  | _ :: _ =>
      let idx := (p / 100) * (len S - 1) in
      let lo := floor idx in
      let hi := ceil idx in
      if lo =? hi then get S lo
      else VNumber (to_number (get S lo)
                    + (idx - lo) * (to_number (get S hi) - to_number (get S lo)))
  end.

(** [v <= w] and [v === w] on values, as the operators decide them. *)
Definition le (v w : value) : bool := to_number v <=? to_number w.


(** [[...a].sort(compare)]: a stable sort driven by the sign of
    [compare(x, y)], where a [NaN] from the comparator counts as [+0];
    [x] is placed before the first [y] with [compare(x, y) <= 0]. *)
Fixpoint insert (compare : float -> float -> float) (x : float)
    (l : list float) : list float :=
  match l with
  | [] => [x]
  | y :: l' =>
      let v := compare x y in
      if is_nan v || (v <=? 0) then x :: l else y :: insert compare x l'
  end.

Fixpoint sort (compare : float -> float -> float) (l : list float)
    : list float :=
  match l with
  | [] => []
  | x :: l' => insert compare x (sort compare l')
  end.

Module Measurements.

(** The object literal of lines 51-62. *)
Record t : Type := {
  p50 : value;
  p75 : value;
  p90 : value;
  p95 : value;
  p99 : value;
  min : value;
  max : value;
  mean : value;
  median : value;
  count : nat
}.

End Measurements.

(** Lines 48-62 of [measureRoute]. *)
Definition reduce_sample (latencies : list float) : Measurements.t :=
  let sorted := sort (fun a b => a - b) latencies in
  let sum := fold_left (fun a b => a + b) sorted 0 in
  {| Measurements.p50 := percentile sorted 50;
     Measurements.p75 := percentile sorted 75;
     Measurements.p90 := percentile sorted 90;
     Measurements.p95 := percentile sorted 95;
     Measurements.p99 := percentile sorted 99;
     Measurements.min := get sorted 0;
     Measurements.max := at_ sorted (-1);
     Measurements.mean := VNumber (sum / len sorted);
     Measurements.median := percentile sorted 50;
     Measurements.count := length sorted |}.

(** What the clock and the network do around one [fetch]: the two
    readings of [performance.now()], in milliseconds, and whether the
    promise rejects. *)
Record response : Type := {
  rejected : bool;
  started : float;
  finished : float
}.

(** The environment: the outcome of the [k]-th request issued. *)
Definition network := nat -> request -> response.

(** [measureSingleRequest], lines 65-77. *)
Definition measureSingleRequest (net : network) (k : nat)
    (url method : string) (headers : option (list (string * string)))
    (body : option string) : float :=
  let outcome :=
    net k {| req_url := url;
             req_method := method;
             req_headers := headers;
             req_body := if String.eqb method "GET" || String.eqb method "HEAD"
                         then None else body |} in
  let start := started outcome in
  if rejected outcome then finished outcome - start
  else finished outcome - start.

Section Driver.

Variable net : network.
Variables (url method : string).
Variables (headers : option (list (string * string))) (body : option string).

(** The inner loop, lines 39-41, and [Promise.all]. *)
Fixpoint batch (issued size : nat) : list float :=
  match size with
  | O => []
  | S size' =>
      measureSingleRequest net issued url method headers body
        :: batch (S issued) size'
  end.

(** The outer loop, lines 35-46, with [todo] iterations left from
    batch number [i]. *)
Fixpoint batches_from (requestCount concurrency : Z) (todo : nat) (i : Z)
    (latencies : list float) : list float :=
  match todo with
  | O => latencies
  | S todo' =>
      let batchSize := Z.min concurrency (requestCount - i * concurrency) in
      let results := batch (length latencies) (Z.to_nat batchSize) in
      batches_from requestCount concurrency todo' (i + 1) (latencies ++ results)
  end.

End Driver.

(** [measureRoute(url, options)], lines 22-63, for integer [requests]
    and [concurrency]; [None] when the call never returns. *)
Definition measureRoute (net : network) (url : string) (o : options)
    : option Measurements.t :=
  let requestCount := default 100%Z (requests o) in
  let concurrency := default 10%Z (concurrency o) in
  let method := default "GET"%string (method o) in
  match batch_count requestCount concurrency with
  | None => None
  | Some batches =>
      let latencies :=
        batches_from net url method (headers o) (body o)
          requestCount concurrency (Z.to_nat batches) 0 [] in
      Some (reduce_sample latencies)
  end.

(** A network on which every request starts at 0.5 ms on the clock and
    ends at 1.8 ms, and a run of two requests. *)
Definition steady_network : network :=
  fun _ _ => {| rejected := false; started := 0.5; finished := 1.8 |}.

Definition two_requests : options :=
  {| requests := Some 2%Z;
     concurrency := None;
     method := None;
     headers := None;
     body := None |}.

End Binary64.

(** ** Notions used to state further properties *)

(** The sum of a sample. *)
Definition sum_of (l : list Q) : Q := fold_right Qplus 0 l.

(** Two arrays hold the same numbers, position by position. *)
Definition same_array (a b : list Q) : Prop := Forall2 Qeq a b.

(** Two bundles hold the same statistics. *)
Definition same_bundle (b1 b2 : Measurements.t) : Prop :=
  same_value (Measurements.p50 b1) (Measurements.p50 b2)
  /\ same_value (Measurements.p75 b1) (Measurements.p75 b2)
  /\ same_value (Measurements.p90 b1) (Measurements.p90 b2)
  /\ same_value (Measurements.p95 b1) (Measurements.p95 b2)
  /\ same_value (Measurements.p99 b1) (Measurements.p99 b2)
  /\ same_value (Measurements.min b1) (Measurements.min b2)
  /\ same_value (Measurements.max b1) (Measurements.max b2)
  /\ same_value (Measurements.mean b1) (Measurements.mean b2)
  /\ same_value (Measurements.median b1) (Measurements.median b2)
  /\ Measurements.count b1 = Measurements.count b2.

(** * Properties *)

(** ** Facts about floor, ceiling and array access *)

Section Rounding.

Variable x : Q.

Lemma floor_le_ceiling : (Qfloor x <= Qceiling x)%Z.
Proof.
  rewrite Zle_Qle.
  apply Qle_trans with x; [apply Qfloor_le | apply Qle_ceiling].
Qed.

Lemma ceiling_le_floor_succ : (Qceiling x <= Qfloor x + 1)%Z.
Proof.
  assert (H : (Qceiling x - 1 < Qfloor x + 1)%Z).
  { rewrite Zlt_Qlt.
    apply Qlt_trans with x; [apply Qceiling_lt | apply Qlt_floor]. }
  lia.
Qed.

(** Either [x] is an integer, or it lies strictly between two
    consecutive integers. *)
Lemma floor_ceiling_cases :
  (Qfloor x = Qceiling x /\ x == inject_Z (Qfloor x)) \/
  (Qceiling x = (Qfloor x + 1)%Z /\
   inject_Z (Qfloor x) < x /\ x < inject_Z (Qfloor x) + 1).
Proof.
  destruct (Z.eq_dec (Qfloor x) (Qceiling x)) as [E | N].
  - left. split; [exact E |].
    apply Qle_antisym; [rewrite E; apply Qle_ceiling | apply Qfloor_le].
  - right.
    pose proof floor_le_ceiling as H1.
    pose proof ceiling_le_floor_succ as H2.
    assert (E : Qceiling x = (Qfloor x + 1)%Z) by lia.
    split; [exact E |].
    pose proof (Qceiling_lt x) as H3.
    pose proof (Qlt_floor x) as H4.
    rewrite E in H3.
    replace (Qfloor x + 1 - 1)%Z with (Qfloor x) in H3 by lia.
    rewrite inject_Z_plus in H4.
    split; [exact H3 | exact H4].
Qed.

End Rounding.

Lemma get_in_range (a : array) (i : Z) :
  (0 <= i < Z.of_nat (length a))%Z -> get a i = VNumber (Fin (rank a i)).
Proof.
  intros [H0 H1]. unfold get, rank.
  destruct (Z.ltb_spec i 0) as [Hn | _]; [lia |].
  assert (Hlt : (Z.to_nat i < length a)%nat) by lia.
  destruct (nth_error a (Z.to_nat i)) as [q |] eqn:E.
  - now rewrite (nth_error_nth a (Z.to_nat i) 0 E).
  - apply nth_error_None in E. lia.
Qed.

Lemma get_out_of_range (a : array) (i : Z) :
  (i < 0 \/ Z.of_nat (length a) <= i)%Z -> get a i = VUndefined.
Proof.
  intros H. unfold get.
  destruct (Z.ltb_spec i 0) as [Hn | Hp]; [reflexivity |].
  assert (Hge : (length a <= Z.to_nat i)%nat) by lia.
  apply nth_error_None in Hge. now rewrite Hge.
Qed.

Lemma percentile_ref_nonempty (S : list Q) (p : Q) :
  S <> [] -> percentile_ref S p = interpolate S ((p / 100) * (len S - 1)).
Proof. destruct S; [congruence | reflexivity]. Qed.

Lemma length_nonempty (S : list Q) : S <> [] -> Nat.eqb (length S) 0 = false.
Proof. destruct S; [congruence | reflexivity]. Qed.

(** ** The estimator on its supported domain *)

Section Estimator.

Variable S : list Q.
Hypothesis nonempty : S <> [].

Let n : Z := Z.of_nat (length S).

Lemma length_pos : (1 <= n)%Z.
Proof. subst n. destruct S; [congruence | simpl length; lia]. Qed.

Lemma len_minus_1 : len S - 1 == inject_Z (n - 1).
Proof.
  unfold len. fold n. unfold Zminus.
  rewrite inject_Z_plus, inject_Z_opp. reflexivity.
Qed.

Lemma index_of_nonneg p : 0 <= p -> 0 <= index_of S p.
Proof.
  intros Hp. unfold index_of. apply Qmult_le_0_compat.
  - apply Qle_shift_div_l; lra.
  - rewrite len_minus_1. change 0 with (inject_Z 0). rewrite <- Zle_Qle.
    pose proof length_pos. lia.
Qed.

Lemma index_of_mono p1 p2 : p1 <= p2 -> index_of S p1 <= index_of S p2.
Proof.
  intros Hp. unfold index_of. apply Qmult_le_compat_r.
  - apply Qmult_le_compat_r; [exact Hp |].
    apply Qlt_le_weak, Qinv_lt_0_compat. reflexivity.
  - rewrite len_minus_1. change 0 with (inject_Z 0). rewrite <- Zle_Qle.
    pose proof length_pos. lia.
Qed.

Lemma index_of_100 : index_of S 100 == inject_Z (n - 1).
Proof. unfold index_of. rewrite len_minus_1. field. Qed.

Lemma index_of_le p : p <= 100 -> index_of S p <= inject_Z (n - 1).
Proof. intros Hp. rewrite <- index_of_100. now apply index_of_mono. Qed.

(** On [0 <= idx <= n-1] both bracketing ranks are valid indices. *)
Lemma floor_in_range idx :
  0 <= idx -> idx <= inject_Z (n - 1) -> (0 <= Qfloor idx <= n - 1)%Z.
Proof.
  intros H0 H1. split.
  - change 0%Z with (Qfloor (inject_Z 0)) at 1. now apply Qfloor_resp_le.
  - rewrite <- (Qfloor_Z (n - 1)). now apply Qfloor_resp_le.
Qed.

Lemma ceiling_in_range idx :
  0 <= idx -> idx <= inject_Z (n - 1) -> (0 <= Qceiling idx <= n - 1)%Z.
Proof.
  intros H0 H1. split.
  - change 0%Z with (Qceiling (inject_Z 0)) at 1. now apply Qceiling_resp_le.
  - rewrite <- (Qceiling_Z (n - 1)). now apply Qceiling_resp_le.
Qed.

(** The code and the reference agree, and the code returns a finite
    number, for every rank in [[0,100]]. *)
Lemma percentile_in_range p :
  0 <= p -> p <= 100 ->
  exists q, percentile S p = VNumber (Fin q) /\ q == percentile_ref S p.
Proof.
  intros H0 H1.
  pose proof (index_of_nonneg p H0) as Hi0.
  pose proof (index_of_le p H1) as Hi1.
  pose proof (floor_in_range _ Hi0 Hi1) as Hf.
  pose proof (ceiling_in_range _ Hi0 Hi1) as Hc.
  rewrite (percentile_ref_nonempty S p nonempty).
  unfold percentile, interpolate.
  rewrite (length_nonempty S nonempty).
  cbv zeta. fold (index_of S p).
  destruct (Z.eqb_spec (Qfloor (index_of S p)) (Qceiling (index_of S p))) as [E | N].
  - rewrite get_in_range by (fold n; lia).
    eexists; split; [reflexivity | reflexivity].
  - rewrite !get_in_range by (fold n; lia).
    unfold vmul, to_number, mul, add.
    eexists; split; [reflexivity |]. ring.
Qed.

End Estimator.

(** ** The sort returns a sorted permutation *)

Section Sort.

Variable compare : Q -> Q -> Q.

Lemma insert_perm x l : Permutation (x :: l) (insert compare x l).
Proof.
  induction l as [| y l IH]; simpl; [reflexivity |].
  destruct (Qle_bool (compare x y) 0); [reflexivity |].
  rewrite perm_swap. now apply perm_skip.
Qed.

Lemma sort_perm l : Permutation l (sort compare l).
Proof.
  induction l as [| x l IH]; simpl; [constructor |].
  rewrite <- insert_perm. now apply perm_skip.
Qed.

Lemma sort_length l : length (sort compare l) = length l.
Proof. symmetry. apply Permutation_length, sort_perm. Qed.

End Sort.

Lemma insert_ascending x l :
  ascending l -> ascending (insert (fun a b => a - b) x l).
Proof.
  unfold ascending.
  induction l as [| y l IH]; intros Hl; simpl.
  - repeat constructor.
  - destruct (Qle_bool (x - y) 0) eqn:E.
    + apply Qle_bool_iff in E. constructor; [exact Hl |].
      constructor. lra.
    + assert (Hyx : y <= x).
      { destruct (Qlt_le_dec x y) as [Hlt | Hle]; [| exact Hle].
        assert (Hb : Qle_bool (x - y) 0 = true) by (apply Qle_bool_iff; lra).
        congruence. }
      inversion Hl as [| ? ? Hl' Hhd]; subst.
      constructor; [now apply IH |].
      destruct l as [| z l]; simpl.
      * constructor. exact Hyx.
      * destruct (Qle_bool (x - z) 0); constructor; [exact Hyx |].
        now inversion Hhd.
Qed.

Lemma sort_ascending l : ascending (sort (fun a b => a - b) l).
Proof.
  induction l as [| x l IH]; simpl; [constructor |].
  now apply insert_ascending.
Qed.

(** ** The estimator on ranks in [[0,100]] *)

(** For a rank in [[0,100]] the code returns a finite number, the one the
    reference definition gives; the empty sequence included. *)
Lemma percentile_finite (S : list Q) (p : Q) :
  0 <= p -> p <= 100 ->
  exists q, percentile S p = VNumber (Fin q) /\ q == percentile_ref S p.
Proof.
  intros H0 H1. destruct S as [| s0 S'] eqn:ES.
  - exists 0. split; reflexivity.
  - apply percentile_in_range; [discriminate | exact H0 | exact H1].
Qed.

(** ** The driver: how many observations a run collects *)

Lemma ceiling_div_bounds (r c : Z) :
  (1 <= c)%Z ->
  ((Qceiling (inject_Z r / inject_Z c) - 1) * c < r)%Z /\
  (r <= Qceiling (inject_Z r / inject_Z c) * c)%Z.
Proof.
  intros Hc.
  set (x := inject_Z r / inject_Z c).
  assert (Hc0 : 0 < inject_Z c)
    by (change 0 with (inject_Z 0); rewrite <- Zlt_Qlt; lia).
  assert (Hx : x * inject_Z c == inject_Z r) by (unfold x; field; lra).
  split.
  - rewrite Zlt_Qlt, inject_Z_mult, <- Hx.
    apply Qmult_lt_compat_r; [exact Hc0 | apply Qceiling_lt].
  - rewrite Zle_Qle, inject_Z_mult, <- Hx.
    apply Qmult_le_compat_r; [apply Qle_ceiling | lra].
Qed.

Section Batches.

Variable net : network.
Variables (url method : string).
Variables (headers : option (list (string * string))) (body : option string).
Variables (r c B : Z).
Hypothesis c_pos : (1 <= c)%Z.
Hypothesis B_lower : ((B - 1) * c < r)%Z.
Hypothesis B_upper : (r <= B * c)%Z.

Lemma batch_length issued size :
  length (batch net url method headers body issued size) = size.
Proof.
  revert issued. induction size as [| size IH]; intros issued; simpl;
    [reflexivity | now rewrite IH].
Qed.

(** Before batch [i] the run holds [min(i * c, r)] observations; after the
    last batch it holds [r]. *)
Lemma batches_from_length (todo : nat) (i : Z) (latencies : list Q) :
  (0 <= i)%Z -> (i + Z.of_nat todo = B)%Z ->
  Z.of_nat (length latencies) = Z.min (i * c) r ->
  Z.of_nat
    (length (batches_from net url method headers body r c todo i latencies))
  = r.
Proof.
  revert i latencies.
  induction todo as [| todo IH]; intros i latencies Hi HB Hlen; simpl.
  - assert (i = B) by lia. subst i. lia.
  - assert (Hlt : (i * c <= (B - 1) * c)%Z)
      by (apply Z.mul_le_mono_nonneg_r; lia).
    apply IH; [lia | lia |].
    rewrite length_app, batch_length.
    replace ((i + 1) * c)%Z with (i * c + c)%Z by ring.
    lia.
Qed.

Lemma batch_sizes_total_from (todo : nat) (i : Z) :
  (0 <= i)%Z -> (i + Z.of_nat todo = B)%Z ->
  total (List.map (fun j : nat => Z.min c (r - (i + Z.of_nat j) * c))
           (seq 0 todo))
  = (r - Z.min (i * c) r)%Z.
Proof.
  revert i. induction todo as [| todo IH]; intros i Hi HB.
  - simpl. assert (i = B) by lia. subst i. lia.
  - assert (Hlt : (i * c <= (B - 1) * c)%Z)
      by (apply Z.mul_le_mono_nonneg_r; lia).
    rewrite <- cons_seq, <- seq_shift, List.map_cons, List.map_map.
    simpl total.
    rewrite (List.map_ext _ (fun j : nat =>
               Z.min c (r - (i + 1 + Z.of_nat j) * c)))
      by (intros j; f_equal; f_equal; f_equal; lia).
    rewrite IH by lia.
    replace ((i + 1) * c)%Z with (i * c + c)%Z by ring.
    replace ((i + Z.of_nat 0) * c)%Z with (i * c)%Z by ring.
    lia.
Qed.

End Batches.

Lemma run_length net url method headers body (r c : Z) :
  (1 <= r)%Z -> (1 <= c)%Z ->
  Z.of_nat
    (length
       (batches_from net url method headers body r c
          (Z.to_nat (Qceiling (inject_Z r / inject_Z c))) 0 []))
  = r.
Proof.
  intros Hr Hc.
  destruct (ceiling_div_bounds r c Hc) as [Hlo Hhi].
  set (B := Qceiling (inject_Z r / inject_Z c)) in *.
  assert (HB : (1 <= B)%Z) by nia.
  apply (batches_from_length net url method headers body r c B Hc Hlo Hhi);
    [lia | lia | simpl; lia].
Qed.

Lemma batch_sizes_total (r c : Z) :
  (1 <= r)%Z -> (1 <= c)%Z -> total (batch_sizes r c) = r.
Proof.
  intros Hr Hc.
  destruct (ceiling_div_bounds r c Hc) as [Hlo Hhi].
  unfold batch_sizes.
  set (B := Qceiling (inject_Z r / inject_Z c)) in *.
  assert (HB : (1 <= B)%Z) by nia.
  rewrite (List.map_ext _ (fun j : nat =>
             Z.min c (r - (0 + Z.of_nat j) * c)))
    by (intros j; f_equal; f_equal; f_equal; lia).
  rewrite (batch_sizes_total_from r c B Hc Hlo Hhi (Z.to_nat B) 0) by lia.
  lia.
Qed.

Lemma reduce_sample_count (latencies : list Q) :
  Measurements.count (reduce_sample latencies) = length latencies.
Proof. unfold reduce_sample. simpl. apply sort_length. Qed.

(** C9.  With [requests >= 1] and [concurrency >= 1] (as given, or as
    defaulted to 100 and 10) the call returns, the batch sizes
    [min(concurrency, requests - i * concurrency)] over the
    [ceil(requests / concurrency)] batches sum to [requests], and the
    bundle's [count] is [requests], whatever the concurrency and whichever
    requests the network rejects. *)
Theorem measureRoute_count (net : network) (url : string) (o : options)
    (r c : Z) :
  default 100%Z (requests o) = r -> default 10%Z (concurrency o) = c ->
  (1 <= r)%Z -> (1 <= c)%Z ->
  total (batch_sizes r c) = r /\
  exists b : Measurements.t,
    measureRoute net url o = Some b /\
    Z.of_nat (Measurements.count b) = r.
Proof.
  intros Er Ec Hr Hc.
  split; [now apply batch_sizes_total |].
  unfold measureRoute, batch_count. rewrite Er, Ec.
  destruct (Z.eqb_spec c 0) as [E0 | _]; [lia |].
  eexists. split; [reflexivity |].
  rewrite reduce_sample_count. now apply run_length.
Qed.

Lemma measureRoute_count_witness :
  total (batch_sizes 7 3) = 7%Z /\
  exists b : Measurements.t,
    measureRoute example_network "http://localhost:3000" example_options
      = Some b /\
    Z.of_nat (Measurements.count b) = 7%Z.
Proof.
  apply (measureRoute_count example_network "http://localhost:3000"
           example_options 7 3); [reflexivity | reflexivity | lia | lia].
Defined.

(** ** The reducer: the statistics of a sample *)

Lemma reduce_sample_empty : reduce_sample [] = empty_bundle.
Proof. reflexivity. Qed.

(** C2 on the code.  Every bundle with [count = 0] that [measureRoute]
    returns is the bundle of the empty sample: the five percentiles and
    the median are [0], but [min] and [max] are [undefined] ([sorted[0]]
    and [sorted.at(-1)] of an empty array) and [mean] is [NaN], the
    quotient [0 / 0]. *)
Theorem measureRoute_empty_sample (net : network) (url : string)
    (o : options) (b : Measurements.t) :
  measureRoute net url o = Some b ->
  Measurements.count b = 0%nat ->
  b = empty_bundle.
Proof.
  unfold measureRoute.
  destruct (batch_count _ _) as [batches |]; [| discriminate].
  intros E Hcount. injection E as <-.
  rewrite reduce_sample_count in Hcount.
  apply length_zero_iff_nil in Hcount. rewrite Hcount.
  apply reduce_sample_empty.
Qed.

(** A run with [requests: 0] issues no request and returns that bundle. *)
Lemma measureRoute_empty_sample_witness :
  measureRoute example_network "http://localhost:3000"
    {| requests := Some 0%Z; concurrency := None; method := None;
       headers := None; body := None |}
  = Some empty_bundle
  /\ Measurements.min empty_bundle = VUndefined
  /\ Measurements.max empty_bundle = VUndefined
  /\ Measurements.mean empty_bundle = VNumber NaN.
Proof.
  split; [| repeat split].
  assert (E : measureRoute example_network "http://localhost:3000"
                {| requests := Some 0%Z; concurrency := None; method := None;
                   headers := None; body := None |}
              = Some (reduce_sample [])) by reflexivity.
  rewrite E. apply (f_equal Some).
  apply (measureRoute_empty_sample example_network "http://localhost:3000"
           _ _ E).
  reflexivity.
Defined.

Section Reducer.

Variable latencies : list Q.
Hypothesis nonempty : latencies <> [].

Let sorted : list Q := sort (fun a b => a - b) latencies.
Let n : Z := Z.of_nat (length sorted).

Lemma sorted_nonempty : sorted <> [].
Proof.
  intros E. apply nonempty.
  apply length_zero_iff_nil. rewrite <- (sort_length (fun a b => a - b)).
  fold sorted. now rewrite E.
Qed.

Lemma sorted_last : at_ sorted (-1) = VNumber (Fin (rank sorted (n - 1))).
Proof.
  unfold at_. simpl Z.ltb. cbv iota.
  replace (Z.of_nat (length sorted) + -1)%Z with (n - 1)%Z by (subst n; lia).
  apply get_in_range. pose proof (length_pos sorted sorted_nonempty).
  fold n. lia.
Qed.

End Reducer.

(** ** The comparator *)

(** The guard of line 85 holds exactly when the value exceeds the limit. *)
Lemma guard_exceeds (v : value) (l : number) :
  negb (is_undefined v) && vgt v l = true <-> exceeds v l.
Proof.
  destruct v as [[a | [] |] | |], l as [b | [] |]; simpl;
    try (split; [discriminate | contradiction]);
    try (split; [discriminate | discriminate]);
    try (split; reflexivity);
    try (split; [reflexivity | intros _; exact I]).
  unfold vgt, to_number, gt. rewrite negb_true_iff. split.
  - intros Hb. apply Qnot_le_lt. intros Hle.
    apply Qle_bool_iff in Hle. congruence.
  - intros Hlt. destruct (Qle_bool a b) eqn:E; [| reflexivity].
    apply Qle_bool_iff in E. lra.
Qed.

(** The loop of lines 82-92 keeps, in order, the entries whose value
    exceeds the limit. *)
Lemma fold_check_entry (m : Measurements.t) (budget : Budget)
    (acc : list Violation) :
  fold_left (check_entry m) budget acc
  = acc ++ List.map (violation_of m)
             (filter (fun e => exceeds (get_property m (fst e)) (snd e))
                budget).
Proof.
  revert acc. induction budget as [| [name l] budget IH]; intros acc.
  - simpl. now rewrite app_nil_r.
  - simpl fold_left. rewrite IH. unfold check_entry.
    destruct (negb (is_undefined (get_property m name))
              && vgt (get_property m name) l) eqn:G.
    + apply guard_exceeds in G.
      rewrite filter_cons_True by exact G.
      now rewrite <- app_assoc.
    + rewrite filter_cons_False; [reflexivity |].
      simpl. intros Hex. apply guard_exceeds in Hex. congruence.
Qed.

Lemma checkBudget_filter (m : Measurements.t) (budget : Budget) :
  violations (checkBudget m budget)
  = List.map (violation_of m)
      (filter (fun e => exceeds (get_property m (fst e)) (snd e)) budget).
Proof. unfold checkBudget. simpl. now rewrite fold_check_entry. Qed.

Lemma in_violations (m : Measurements.t) (budget : Budget) (v : Violation) :
  In v (violations (checkBudget m budget)) <->
  exists e, In e budget /\ exceeds (get_property m (fst e)) (snd e)
            /\ v = violation_of m e.
Proof.
  rewrite checkBudget_filter, in_map_iff. split.
  - intros [e [Ev He]]. apply list_elem_of_In, list_elem_of_filter in He.
    destruct He as [Hex Hin]. exists e.
    split; [now apply list_elem_of_In | split; [exact Hex | now symmetry]].
  - intros [e [Hin [Hex Ev]]]. exists e. split; [now symmetry |].
    apply list_elem_of_In, list_elem_of_filter.
    split; [exact Hex | now apply list_elem_of_In].
Qed.

Lemma get_property_unknown (m : Measurements.t) (name : string) :
  ~ In name bundle_fields ->
  get_property m name = VObject \/ get_property m name = VUndefined.
Proof.
  intros Hn. unfold get_property, assoc, own_properties. simpl.
  repeat match goal with
         | |- context [String.eqb name ?s] =>
             destruct (String.eqb_spec name s) as [-> | ?];
             [exfalso; apply Hn; simpl; tauto |]
         end.
  match goal with
  | |- context [if ?c then VObject else VUndefined] => destruct c
  end; [left | right]; reflexivity.
Qed.

(** C3.  The violations are exactly the budget entries whose bundle value
    strictly exceeds the limit, each recorded as [{metric, actual, limit}]
    and in the order of the budget's entries; for finite numbers "exceeds"
    is [limit < actual], so a value equal to its limit records nothing;
    and [passed] holds exactly when the list is empty. *)
Theorem checkBudget_violations (m : Measurements.t) (budget : Budget) :
  violations (checkBudget m budget)
  = List.map (violation_of m)
      (filter (fun e => exceeds (get_property m (fst e)) (snd e)) budget)
  /\ (forall (name : string) (a l : Q),
         In (name, Fin l) budget ->
         get_property m name = VNumber (Fin a) ->
         (In {| metric := name; actual := VNumber (Fin a); limit := Fin l |}
             (violations (checkBudget m budget))
          <-> l < a))
  /\ (passed (checkBudget m budget) = true
      <-> violations (checkBudget m budget) = []).
Proof.
  split; [apply checkBudget_filter | split].
  - intros name a l Hin Hget. rewrite in_violations. split.
    + intros [[name' l'] [_ [Hex Ev]]]. unfold violation_of in Ev.
      simpl in Ev, Hex. injection Ev as <- Ea <-.
      rewrite Hget in Hex. exact Hex.
    + intros Hlt. exists (name, Fin l).
      split; [exact Hin | split].
      * simpl. rewrite Hget. exact Hlt.
      * unfold violation_of. simpl. now rewrite Hget.
  - unfold checkBudget. simpl.
    destruct (fold_left (check_entry m) budget []) as [| v vs]; simpl.
    + split; reflexivity.
    + split; discriminate.
Qed.

(** C6.  The empty budget passes with no violation; and an entry whose
    key is not a field of the bundle never gives a violation, whatever
    its limit. *)
Theorem checkBudget_empty_or_unknown (m : Measurements.t) :
  checkBudget m [] = {| passed := true; violations := [] |}
  /\ forall (budget : Budget) (name : string),
       ~ In name bundle_fields ->
       forall v : Violation,
         In v (violations (checkBudget m budget)) -> metric v <> name.
Proof.
  split; [reflexivity |].
  intros budget name Hn v Hv Hname.
  apply in_violations in Hv. destruct Hv as [[name' l] [_ [Hex Ev]]].
  subst v. simpl in Hname, Hex. subst name'.
  destruct (get_property_unknown m name Hn) as [E | E];
    rewrite E in Hex; exact Hex.
Qed.

(** C10.  Each of the ten field names resolves to the field of the
    bundle, the non-percentile ones included; and an entry of the budget
    under such a name is recorded as a violation exactly when the field's
    value exceeds its limit. *)
Theorem checkBudget_compares_every_field (m : Measurements.t)
    (budget : Budget) :
  (get_property m "p50" = Measurements.p50 m
   /\ get_property m "p75" = Measurements.p75 m
   /\ get_property m "p90" = Measurements.p90 m
   /\ get_property m "p95" = Measurements.p95 m
   /\ get_property m "p99" = Measurements.p99 m
   /\ get_property m "min" = Measurements.min m
   /\ get_property m "max" = Measurements.max m
   /\ get_property m "mean" = Measurements.mean m
   /\ get_property m "median" = Measurements.median m
   /\ get_property m "count"
      = VNumber (Fin (inject_Z (Z.of_nat (Measurements.count m)))))
  /\ forall (name : string) (l : number),
       In name bundle_fields -> In (name, l) budget ->
       (exceeds (get_property m name) l <->
        In {| metric := name; actual := get_property m name; limit := l |}
           (violations (checkBudget m budget))).
Proof.
  split; [repeat split |].
  intros name l _ Hin. rewrite in_violations. split.
  - intros Hex. exists (name, l). repeat split; assumption.
  - intros [[name' l'] [_ [Hex Ev]]]. unfold violation_of in Ev.
    simpl in Ev, Hex. injection Ev as <- _ <-. exact Hex.
Qed.

(** A bundle over budget on its mean only. *)
Lemma checkBudget_mean_scenario :
  checkBudget
    {| Measurements.p50 := VNumber (Fin 10);
       Measurements.p75 := VNumber (Fin 20);
       Measurements.p90 := VNumber (Fin 30);
       Measurements.p95 := VNumber (Fin 200);
       Measurements.p99 := VNumber (Fin 500);
       Measurements.min := VNumber (Fin 5);
       Measurements.max := VNumber (Fin 500);
       Measurements.mean := VNumber (Fin 25);
       Measurements.median := VNumber (Fin 10);
       Measurements.count := 100 |}
    [("p95"%string, Fin 200); ("mean"%string, Fin 20);
     ("p96"%string, Fin 1); ("toString"%string, Fin 0)]
  = {| passed := false;
       violations := [ {| metric := "mean"; actual := VNumber (Fin 25);
                          limit := Fin 20 |} ] |}.
Proof. reflexivity. Qed.

(** ** The registry: what [defineBudget] copies and what it shares *)

Lemma defineBudget_fresh (h : heap) (budgets : positive) :
  h !! snd (defineBudget h budgets) = None.
Proof.
  unfold defineBudget. simpl.
  apply not_elem_of_dom. apply is_fresh.
Qed.

(** C7, as the code has it.  [defineBudget] returns a new top-level map
    with the entries of its input: equal in value, and independent at the
    top level, since a write or a delete of a route through one map
    leaves the other map (and every other object) untouched.  The
    per-route records are not copied: both maps hold the same references,
    and a write to a nested record through the returned map is the very
    same update as that write through the original. *)
Theorem defineBudget_shallow_copy (h h' : heap) (budgets copy : positive)
    (o : object) :
  h !! budgets = Some o ->
  defineBudget h budgets = (h', copy) ->
  h !! copy = None
  /\ h' !! copy = Some o
  /\ (forall l : positive, h' !! l = if decide (l = copy) then Some o else h !! l)
  /\ observe h' copy = observe h' budgets
  /\ (forall (key : string) (v : property) (l : positive),
         h' !! l = if decide (l = copy) then Some o else
                   set_property h' copy key v !! l)
  /\ (forall (key : string) (l : positive),
         h' !! l = if decide (l = copy) then Some o else
                   delete_property h' copy key !! l)
  /\ (forall (key : string) (v : property),
         set_property h' budgets key v !! copy = Some o
         /\ delete_property h' budgets key !! copy = Some o)
  /\ (forall (route metric : string) (x : number),
         set_nested h' copy route metric x
         = set_nested h' budgets route metric x).
Proof.
  intros Hb Hd.
  pose proof (defineBudget_fresh h budgets) as Hfresh.
  rewrite Hd in Hfresh. simpl in Hfresh.
  unfold defineBudget in Hd. rewrite Hb in Hd. simpl in Hd.
  injection Hd as Hh' Hcopy.
  assert (Hne : budgets <> copy) by (intros ->; congruence).
  assert (Hc : h' !! copy = Some o)
    by (rewrite <- Hh', Hcopy; apply lookup_insert_eq).
  assert (Ho : forall l, l <> copy -> h' !! l = h !! l)
    by (intros l Hl; rewrite <- Hh', Hcopy; apply lookup_insert_ne; congruence).
  assert (Hb' : h' !! budgets = Some o) by (rewrite Ho; [exact Hb | exact Hne]).
  repeat split.
  - exact Hfresh.
  - exact Hc.
  - intros l. destruct (decide (l = copy)) as [-> | Hl]; [exact Hc | now apply Ho].
  - unfold observe. now rewrite Hc, Hb'.
  - intros key v l. destruct (decide (l = copy)) as [-> | Hl]; [exact Hc |].
    unfold set_property. symmetry. apply lookup_alter_ne. congruence.
  - intros key l. destruct (decide (l = copy)) as [-> | Hl]; [exact Hc |].
    unfold delete_property. symmetry. apply lookup_alter_ne. congruence.
  - unfold set_property. rewrite lookup_alter_ne by exact Hne. exact Hc.
  - unfold delete_property. rewrite lookup_alter_ne by exact Hne. exact Hc.
  - intros route metric x. unfold set_nested. now rewrite Hc, Hb'.
Qed.

Lemma defineBudget_shallow_copy_witness :
  fst (defineBudget example_heap 1) !! 4%positive
  = Some [("/api/users"%string, PRef 2); ("/api/checkout"%string, PRef 3)]
  /\ set_nested (fst (defineBudget example_heap 1)) 4 "/api/users" "p95" (Fin 1)
     = set_nested (fst (defineBudget example_heap 1)) 1 "/api/users" "p95" (Fin 1).
Proof.
  assert (Hb : example_heap !! 1%positive
               = Some [("/api/users"%string, PRef 2);
                       ("/api/checkout"%string, PRef 3)])
    by reflexivity.
  assert (Hd : defineBudget example_heap 1
               = (fst (defineBudget example_heap 1), 4%positive))
    by reflexivity.
  pose proof (defineBudget_shallow_copy _ _ _ _ _ Hb Hd) as H.
  split; [exact (proj1 (proj2 H)) |].
  exact (proj2 (proj2 (proj2 (proj2 (proj2 (proj2 (proj2 H)))))) _ _ _).
Defined.

(** C7, as stated, fails.  On the registry of the usage example the
    returned map is the new object [4]; before any write the caller's
    original map [1] shows a [p95] limit of [200] for ["/api/users"];
    after [returned["/api/users"].p95 = 1] the original shows [1]. *)
Lemma defineBudget_nested_alias_counterexample :
  snd (defineBudget example_heap 1) = 4%positive
  /\ observe (fst (defineBudget example_heap 1)) 1
     = Some [("/api/users"%string,
              Some [("p95"%string, PNumber (Fin 200));
                    ("p99"%string, PNumber (Fin 500))]);
             ("/api/checkout"%string,
              Some [("p95"%string, PNumber (Fin 100))])]
  /\ observe
       (set_nested (fst (defineBudget example_heap 1)) 4
          "/api/users" "p95" (Fin 1)) 1
     = Some [("/api/users"%string,
              Some [("p95"%string, PNumber (Fin 1));
                    ("p99"%string, PNumber (Fin 500))]);
             ("/api/checkout"%string,
              Some [("p95"%string, PNumber (Fin 100))])].
Proof. vm_compute. repeat split. Qed.

(** ** The estimator and the reducer in binary64 *)

Module OnBinary64.

Import Floats.
Import Binary64.
Local Open Scope float_scope.
#[local] Set Warnings "-inexact-float".

(** [NaN] absorbs products and sums. *)
Lemma mul_nan_l (x : float) : nan * x = nan.
Proof.
  apply Prim2SF_inj. rewrite mul_spec.
  change (Prim2SF nan) with S754_nan. reflexivity.
Qed.

Lemma mul_nan_r (x : float) : x * nan = nan.
Proof.
  apply Prim2SF_inj. rewrite mul_spec.
  change (Prim2SF nan) with S754_nan.
  destruct (Prim2SF x); reflexivity.
Qed.

Lemma add_nan_l (x : float) : nan + x = nan.
Proof.
  apply Prim2SF_inj. rewrite add_spec.
  change (Prim2SF nan) with S754_nan. reflexivity.
Qed.

Lemma add_nan_r (x : float) : x + nan = nan.
Proof.
  apply Prim2SF_inj. rewrite add_spec.
  change (Prim2SF nan) with S754_nan.
  destruct (Prim2SF x); reflexivity.
Qed.

(** An access reads [undefined] exactly when the key names no element. *)
Lemma get_of_no_index (a : list float) (i : float) :
  in_range a i = false -> get a i = VUndefined.
Proof.
  unfold in_range, get. destruct (array_index i) as [z |]; [| reflexivity].
  intros H. apply Z.ltb_ge in H.
  destruct (nth_error a (Z.to_nat z)) as [x |] eqn:E; [| reflexivity].
  assert (Hn : (Z.to_nat z < length a)%nat)
    by (apply nth_error_Some; rewrite E; discriminate).
  lia.
Qed.

Lemma array_index_nonneg (i : float) (z : Z) :
  array_index i = Some z -> (0 <= z)%Z.
Proof.
  unfold array_index. destruct (Prim2SF i) as [s | s | | s m e].
  - intros [= <-]. lia.
  - discriminate.
  - discriminate.
  - destruct s; [discriminate |].
    destruct (0 <=? e)%Z eqn:He.
    + intros [= <-]. apply Z.leb_le in He.
      apply Z.mul_nonneg_nonneg; [lia | apply Z.pow_nonneg; lia].
    + destruct ((Z.pos m mod 2 ^ (- e)) =? 0)%Z; [| discriminate].
      intros [= <-]. apply Z.leb_gt in He.
      apply Z.div_pos; [lia | apply Z.pow_pos_nonneg; lia].
Qed.

Lemma get_of_index (a : list float) (i : float) :
  in_range a i = true -> exists x, get a i = VNumber x.
Proof.
  unfold in_range, get.
  destruct (array_index i) as [z |] eqn:Ei; [| discriminate].
  apply array_index_nonneg in Ei.
  intros H. apply Z.ltb_lt in H.
  destruct (nth_error a (Z.to_nat z)) as [x |] eqn:E; [exists x; reflexivity |].
  apply nth_error_None in E. lia.
Qed.

Lemma percentile_nonempty (S : list float) (p : float) :
  S <> [] ->
  percentile S p
  = let index := (p / 100) * (len S - 1) in
    let lower := floor index in
    let upper := ceil index in
    if lower =? upper then get S lower
    else VNumber (to_number (get S lower) * (1 - (index - lower))
                  + to_number (get S upper) * (index - lower)).
Proof.
  intros H. unfold percentile. destruct S as [| x S']; [contradiction |].
  reflexivity.
Qed.




(** C4.  The estimator is not monotone in the rank.  On the sorted
    sequence [[3, 3]] rank 0 gives 3 and rank 1 gives 2.9999999999999996;
    on [[1.3, 1.3]] rank 90 gives 1.3 and rank 95 gives
    1.2999999999999998; on the strictly ascending
    [[1.5, 1.5000000000000002]] rank 90 gives 1.5000000000000002 and
    rank 95 gives 1.5.  In each case the greater rank has the smaller
    result. *)
Theorem percentile_not_monotone :
  (percentile [3; 3] 0 = VNumber 3
   /\ percentile [3; 3] 1 = VNumber 2.9999999999999996
   /\ le (percentile [3; 3] 0) (percentile [3; 3] 1) = false)
  /\ (percentile [1.3; 1.3] 90 = VNumber 1.3
      /\ percentile [1.3; 1.3] 95 = VNumber 1.2999999999999998
      /\ le (percentile [1.3; 1.3] 90) (percentile [1.3; 1.3] 95) = false)
  /\ (percentile [1.5; 1.5000000000000002] 90 = VNumber 1.5000000000000002
      /\ percentile [1.5; 1.5000000000000002] 95 = VNumber 1.5
      /\ le (percentile [1.5; 1.5000000000000002] 90)
            (percentile [1.5; 1.5000000000000002] 95) = false).
Proof. repeat split; vm_compute; reflexivity. Qed.

(** C5.  A run of two requests that both take 1.3 ms (the clock reads
    0.5 before and 1.8 after each) returns a bundle with [count = 2],
    [min = max = p50 = p75 = p90 = 1.3] and
    [p95 = p99 = 1.2999999999999998]: neither [p90 <= p95] nor
    [min <= p95] nor [min <= p99] holds.  The other half of the claim
    holds of every bundle: [median] and [p50] are the same value. *)
Theorem measureRoute_bundle_out_of_order (url : string) :
  (exists b : Measurements.t,
     measureRoute steady_network url two_requests = Some b
     /\ Measurements.count b = 2%nat
     /\ Measurements.min b = VNumber 1.3
     /\ Measurements.p50 b = VNumber 1.3
     /\ Measurements.p75 b = VNumber 1.3
     /\ Measurements.p90 b = VNumber 1.3
     /\ Measurements.p95 b = VNumber 1.2999999999999998
     /\ Measurements.p99 b = VNumber 1.2999999999999998
     /\ Measurements.max b = VNumber 1.3
     /\ le (Measurements.p90 b) (Measurements.p95 b) = false
     /\ le (Measurements.min b) (Measurements.p95 b) = false
     /\ le (Measurements.min b) (Measurements.p99 b) = false)
  /\ (forall (net : network) (o : options) (b : Measurements.t),
        measureRoute net url o = Some b ->
        Measurements.median b = Measurements.p50 b).
Proof.
  split.
  - eexists. split; [vm_compute; reflexivity |].
    repeat split; vm_compute; reflexivity.
  - intros net o b. unfold measureRoute.
    destruct (batch_count _ _); [| discriminate].
    intros [= <-]. reflexivity.
Qed.

(** C8, as the claim states it, fails.  On [[1, 2, 3]] rank 150 has index
    3, which names no element: the access reads [undefined] and that is
    the result.  Rank 125 has index 2.5, between the element at 2 and
    the missing one at 3: the weighted sum is [NaN]. *)
Lemma percentile_beyond_last_element :
  percentile [1; 2; 3] 150 = VUndefined
  /\ in_range [1; 2; 3] (floor ((150 / 100) * (len [1; 2; 3] - 1))) = false
  /\ percentile [1; 2; 3] 125 = VNumber nan
  /\ in_range [1; 2; 3] (ceil ((125 / 100) * (len [1; 2; 3] - 1))) = false.
Proof. repeat split; vm_compute; reflexivity. Qed.

(** C8, amended.  For every sequence [S] and every number [p], in
    [[0,100]] or not, an infinity and [NaN] included, the same code path
    runs and returns a value, with [idx = (p/100)*(n-1)],
    [lo = floor(idx)] and [hi = ceil(idx)] as the program computes them.
    The empty sequence gives 0.  When [lo == hi], the result is the
    element [S[lo]] if [lo] names one and [undefined] if not.  When
    [lo != hi], the result is the weighted average of [S[lo]] and
    [S[hi]] if both name elements, and [NaN] as soon as one of them does
    not.  No value is extrapolated beyond the elements. *)
Theorem percentile_any_rank (S : list float) (p : float) :
  let idx := (p / 100) * (len S - 1) in
  let lo := floor idx in
  let hi := ceil idx in
  let w := idx - lo in
  percentile [] p = VNumber 0
  /\ (S <> [] -> (lo =? hi) = true -> in_range S lo = true ->
      exists x, get S lo = VNumber x /\ percentile S p = VNumber x)
  /\ (S <> [] -> (lo =? hi) = true -> in_range S lo = false ->
      percentile S p = VUndefined)
  /\ (S <> [] -> (lo =? hi) = false ->
      in_range S lo = true -> in_range S hi = true ->
      exists a b, get S lo = VNumber a /\ get S hi = VNumber b
                  /\ percentile S p = VNumber (a * (1 - w) + b * w))
  /\ (S <> [] -> (lo =? hi) = false ->
      in_range S lo = false \/ in_range S hi = false ->
      percentile S p = VNumber nan).
Proof.
  intros idx lo hi w. split; [reflexivity |].
  assert (Eq : S <> [] -> (lo =? hi) = true -> percentile S p = get S lo).
  { intros HS H. rewrite (percentile_nonempty S p HS). cbv zeta.
    fold idx. fold lo. fold hi. rewrite H. reflexivity. }
  assert (Ne : S <> [] -> (lo =? hi) = false ->
               percentile S p
               = VNumber (to_number (get S lo) * (1 - w)
                          + to_number (get S hi) * w)).
  { intros HS H. rewrite (percentile_nonempty S p HS). cbv zeta.
    fold idx. fold lo. fold hi. rewrite H. reflexivity. }
  split; [| split; [| split]].
  - intros HS H Hin. destruct (get_of_index S lo Hin) as [x Hx].
    exists x. split; [exact Hx |]. rewrite (Eq HS H). exact Hx.
  - intros HS H Hout. rewrite (Eq HS H). apply get_of_no_index. exact Hout.
  - intros HS H Hlo Hhi.
    destruct (get_of_index S lo Hlo) as [a Ha].
    destruct (get_of_index S hi Hhi) as [b Hb].
    exists a, b. split; [exact Ha |]. split; [exact Hb |].
    rewrite (Ne HS H), Ha, Hb. reflexivity.
  - intros HS H [Hout | Hout]; rewrite (Ne HS H);
      rewrite (get_of_no_index _ _ Hout); simpl to_number.
    + rewrite mul_nan_l, add_nan_l. reflexivity.
    + rewrite mul_nan_l, add_nan_r. reflexivity.
Qed.

(** A rank just below 0 whose index underflows to [-0] reads the first
    element; an infinite rank on a singleton has index [NaN] and gives
    [NaN]; a finite rank on a singleton reads its element; rank -50 on
    three elements has index -1 and gives [undefined], and rank -25 has
    index -0.5 and gives [NaN]. *)
Lemma percentile_any_rank_witness :
  percentile [1; 2; 3] (-0x1p-1074) = VNumber 1
  /\ percentile [7] infinity = VNumber nan
  /\ percentile [7] (-3) = VNumber 7
  /\ percentile [1; 2; 3] (-50) = VUndefined
  /\ percentile [1; 2; 3] (-25) = VNumber nan.
Proof.
  split; [| split; [| split; [| split]]].
  - pose proof (percentile_any_rank [1; 2; 3] (-0x1p-1074)) as (_ & H & _).
    specialize (H ltac:(discriminate) eq_refl eq_refl).
    destruct H as (x & Hx & E). rewrite E.
    vm_compute in Hx. symmetry. exact Hx.
  - vm_compute; reflexivity.
  - vm_compute; reflexivity.
  - apply (percentile_any_rank [1; 2; 3] (-50));
      [discriminate | reflexivity | reflexivity].
  - apply (percentile_any_rank [1; 2; 3] (-25));
      [discriminate | reflexivity | left; reflexivity].
Defined.

End OnBinary64.

(** * Further properties of the code *)

(** ** The estimator at the end ranks *)


Lemma nth_last (l : list Q) (d e : Q) :
  l <> [] -> nth (length l - 1) l d = List.last l e.
Proof.
  induction l as [| a l IH]; intros Hne; [congruence |].
  destruct l as [| b l]; [reflexivity |].
  change (List.last (a :: b :: l) e) with (List.last (b :: l) e).
  rewrite <- IH by discriminate.
  simpl length. replace (S (S (length l)) - 1)%nat with (S (length l)) by lia.
  simpl. now rewrite Nat.sub_0_r.
Qed.


(** ** The reducer: extremes *)

Lemma ascending_first_le (x : Q) (l : list Q) (y : Q) :
  ascending (x :: l) -> In y (x :: l) -> x <= y.
Proof.
  intros Hs Hin.
  apply Sorted_StronglySorted in Hs; [| intros a b c; apply Qle_trans].
  inversion Hs as [| ? ? _ Hall]; subst.
  destruct Hin as [<- | Hin]; [apply Qle_refl |].
  rewrite List.Forall_forall in Hall. now apply Hall.
Qed.

Lemma ascending_le_last (l : list Q) (d y : Q) :
  ascending l -> In y l -> y <= List.last l d.
Proof.
  intros Hs Hin.
  apply Sorted_StronglySorted in Hs; [| intros a b c; apply Qle_trans].
  induction Hs as [| a l Hl IH Hall]; [contradiction |].
  destruct l as [| b l].
  - destruct Hin as [<- | []]. apply Qle_refl.
  - change (List.last (a :: b :: l) d) with (List.last (b :: l) d).
    destruct Hin as [<- | Hin]; [| now apply IH].
    rewrite List.Forall_forall in Hall. apply Hall.
    destruct (exists_last (l := b :: l)) as [l' [z E]]; [discriminate |].
    rewrite E, last_last. apply in_or_app. right. now left.
Qed.

Lemma last_in (l : list Q) (d : Q) : l <> [] -> In (List.last l d) l.
Proof.
  intros Hne. destruct (exists_last Hne) as [l' [z E]].
  rewrite E, last_last. apply in_or_app. right. now left.
Qed.

Section Extremes.

Variable latencies : list Q.
Hypothesis nonempty : latencies <> [].

Let sorted : list Q := sort (fun a b => a - b) latencies.

Lemma sorted_cons : exists x l, sorted = x :: l.
Proof.
  destruct sorted as [| x l] eqn:E; [| now exists x, l].
  exfalso. apply (sorted_nonempty latencies nonempty). exact E.
Qed.

Lemma min_is_first :
  exists x l, sorted = x :: l
    /\ Measurements.min (reduce_sample latencies) = VNumber (Fin x).
Proof.
  destruct sorted_cons as [x [l E]]. exists x, l. split; [exact E |].
  change (Measurements.min (reduce_sample latencies)) with (get sorted 0).
  now rewrite E.
Qed.

Lemma max_is_last (d : Q) :
  Measurements.max (reduce_sample latencies)
  = VNumber (Fin (List.last sorted d)).
Proof.
  change (Measurements.max (reduce_sample latencies)) with (at_ sorted (-1)).
  unfold sorted. rewrite (sorted_last latencies nonempty). fold sorted.
  unfold rank. do 2 f_equal.
  replace (Z.to_nat (Z.of_nat (length sorted) - 1))
    with (length sorted - 1)%nat by lia.
  apply nth_last. apply (sorted_nonempty latencies nonempty).
Qed.

End Extremes.

(** X6.  On a non-empty sample, [min] and [max] are observations of the
    sample, and every observation lies between them. *)
Theorem reduce_sample_extremes (latencies : list Q) :
  latencies <> [] ->
  exists lo hi : Q,
    Measurements.min (reduce_sample latencies) = VNumber (Fin lo)
    /\ Measurements.max (reduce_sample latencies) = VNumber (Fin hi)
    /\ In lo latencies /\ In hi latencies
    /\ forall x : Q, In x latencies -> lo <= x /\ x <= hi.
Proof.
  intros Hne.
  pose proof (sort_perm (fun a b => a - b) latencies) as Hperm.
  pose proof (sort_ascending latencies) as Hs.
  destruct (min_is_first latencies Hne) as [lo [l [E Hmin]]].
  exists lo, (List.last (sort (fun a b => a - b) latencies) lo).
  split; [exact Hmin |].
  split; [apply (max_is_last latencies Hne) |].
  split.
  - apply (Permutation_in _ (Permutation_sym Hperm)). rewrite E. now left.
  - split.
    + apply (Permutation_in _ (Permutation_sym Hperm)).
      apply last_in. rewrite E. discriminate.
    + intros x Hx. apply (Permutation_in _ Hperm) in Hx. split.
      * rewrite E in Hs, Hx. now apply (ascending_first_le lo l).
      * now apply ascending_le_last.
Qed.

Lemma reduce_sample_extremes_witness :
  exists lo hi : Q,
    Measurements.min (reduce_sample [7; 2; 9; 4]) = VNumber (Fin lo)
    /\ Measurements.max (reduce_sample [7; 2; 9; 4]) = VNumber (Fin hi)
    /\ In lo [7; 2; 9; 4] /\ In hi [7; 2; 9; 4]
    /\ forall x : Q, In x [7; 2; 9; 4] -> lo <= x /\ x <= hi.
Proof. apply (reduce_sample_extremes [7; 2; 9; 4]). discriminate. Defined.

Lemma fold_left_sum (l : list Q) (acc : Q) :
  fold_left (fun a b => a + b) l acc == acc + sum_of l.
Proof.
  revert acc. induction l as [| x l IH]; intros acc; simpl.
  - ring.
  - rewrite IH. ring.
Qed.

Lemma len_positive (l : list Q) : l <> [] -> 0 < len l.
Proof.
  intros Hne. unfold len. change 0 with (inject_Z 0). rewrite <- Zlt_Qlt.
  pose proof (length_pos l Hne). lia.
Qed.

(** ** The reducer does not depend on the order of arrival *)

Lemma same_array_refl (l : list Q) : same_array l l.
Proof. induction l; constructor; [reflexivity | assumption]. Qed.

Lemma same_array_trans (a b c : list Q) :
  same_array a b -> same_array b c -> same_array a c.
Proof.
  intros Hab. revert c. induction Hab as [| x y a b Hxy _ IH]; intros c Hbc.
  - inversion Hbc. constructor.
  - inversion Hbc as [| y' z b' c' Hyz Hbc']; subst.
    constructor; [now rewrite Hxy | now apply IH].
Qed.

Lemma same_array_length (a b : list Q) :
  same_array a b -> length a = length b.
Proof. induction 1; simpl; congruence. Qed.

Lemma leb_sub_true (x y : Q) : Qle_bool (x - y) 0 = true <-> x <= y.
Proof. rewrite Qle_bool_iff. split; intros H; lra. Qed.

Lemma leb_sub_false (x y : Q) : Qle_bool (x - y) 0 = false <-> y < x.
Proof.
  split.
  - intros H. apply Qnot_le_lt. intros Hle.
    apply leb_sub_true in Hle. congruence.
  - intros H. destruct (Qle_bool (x - y) 0) eqn:E; [| reflexivity].
    apply leb_sub_true in E. lra.
Qed.

Ltac order_cases :=
  repeat match goal with
         | |- context [Qle_bool (?a - ?b) 0] =>
             let E := fresh "E" in
             destruct (Qle_bool (a - b) 0) eqn:E;
             [apply leb_sub_true in E | apply leb_sub_false in E]
         end.

Lemma insert_same (x x' : Q) (l l' : list Q) :
  x == x' -> same_array l l' ->
  same_array (insert (fun a b => a - b) x l) (insert (fun a b => a - b) x' l').
Proof.
  intros Hx Hl. induction Hl as [| y y' l l' Hy Hl IH]; simpl.
  - repeat constructor. exact Hx.
  - order_cases; try (exfalso; lra).
    + constructor; [exact Hx |]. constructor; assumption.
    + constructor; assumption.
Qed.

Lemma insert_swap (x y : Q) (s : list Q) :
  same_array (insert (fun a b => a - b) x (insert (fun a b => a - b) y s))
             (insert (fun a b => a - b) y (insert (fun a b => a - b) x s)).
Proof.
  induction s as [| z s IH]; simpl.
  - order_cases; try (exfalso; lra);
      repeat (constructor; try lra); try reflexivity.
  - order_cases; simpl; order_cases; try (exfalso; lra);
      repeat first [ apply same_array_refl
                   | exact IH
                   | constructor; [lra || reflexivity |] ].
Qed.

Lemma sort_perm_same (l l' : list Q) :
  Permutation l l' ->
  same_array (sort (fun a b => a - b) l) (sort (fun a b => a - b) l').
Proof.
  induction 1 as [| x l l' _ IH | x y l | l l' l'' _ IH1 _ IH2]; simpl.
  - constructor.
  - apply insert_same; [reflexivity | exact IH].
  - apply insert_swap.
  - now apply same_array_trans with (sort (fun a b => a - b) l').
Qed.

Lemma get_same (a b : list Q) (i : Z) :
  same_array a b ->
  (exists x y, get a i = VNumber (Fin x) /\ get b i = VNumber (Fin y) /\ x == y)
  \/ (get a i = VUndefined /\ get b i = VUndefined).
Proof.
  intros Hab. unfold get.
  destruct (i <? 0)%Z; [right; split; reflexivity |].
  generalize (Z.to_nat i). intros k. revert k.
  induction Hab as [| x y a b Hxy _ IH]; intros k.
  - right. destruct k; split; reflexivity.
  - destruct k as [| k]; simpl.
    + left. exists x, y. repeat split. exact Hxy.
    + apply IH.
Qed.

Lemma get_same_value (a b : list Q) (i : Z) :
  same_array a b -> same_value (get a i) (get b i).
Proof.
  intros Hab.
  destruct (get_same a b i Hab) as [[x [y [-> [-> E]]]] | [-> ->]];
    simpl; [exact E | exact I].
Qed.

(** The estimator gives the same value on arrays that hold the same
    numbers, at every rank. *)
Lemma percentile_same (a b : list Q) (p : Q) :
  same_array a b -> same_value (percentile a p) (percentile b p).
Proof.
  intros Hab. pose proof (same_array_length a b Hab) as Hlen.
  unfold percentile, len. rewrite <- Hlen.
  destruct (Nat.eqb (length a) 0); [simpl; reflexivity |].
  cbv zeta.
  set (index := p / 100 * (inject_Z (Z.of_nat (length a)) - 1)).
  destruct (Z.eqb (Qfloor index) (Qceiling index)).
  - now apply get_same_value.
  - destruct (get_same a b (Qfloor index) Hab)
      as [[x [y [-> [-> E]]]] | [-> ->]];
      destruct (get_same a b (Qceiling index) Hab)
        as [[x' [y' [-> [-> E']]]] | [-> ->]];
      simpl; try exact I.
    now rewrite E, E'.
Qed.

Lemma sum_of_same (a b : list Q) : same_array a b -> sum_of a == sum_of b.
Proof.
  induction 1 as [| x y a b Hxy _ IH]; simpl; [reflexivity |].
  now rewrite Hxy, IH.
Qed.

Lemma reduce_sample_perm (l l' : list Q) :
  Permutation l l' -> same_bundle (reduce_sample l) (reduce_sample l').
Proof.
  intros Hperm.
  pose proof (sort_perm_same l l' Hperm) as Hs.
  pose proof (same_array_length _ _ Hs) as Hlen.
  unfold same_bundle, reduce_sample. cbv zeta.
  cbn [Measurements.p50 Measurements.p75 Measurements.p90 Measurements.p95
       Measurements.p99 Measurements.min Measurements.max Measurements.mean
       Measurements.median Measurements.count].
  set (s := sort (fun a b => a - b) l) in *.
  set (s' := sort (fun a b => a - b) l') in *.
  repeat (split; [now apply percentile_same |]).
  split; [now apply get_same_value |].
  split; [unfold at_; rewrite Hlen; now apply get_same_value |].
  split; [| split; [now apply percentile_same | exact Hlen]].
  clearbody s s'. destruct Hs as [| x y s s' Hxy Hs]; [simpl; exact I |].
  assert (Hne : x :: s <> []) by discriminate.
  pose proof (len_positive _ Hne) as Hpos.
  unfold len in *. rewrite <- Hlen. unfold div, Qzerob.
  destruct (Qeq_bool (inject_Z (Z.of_nat (length (x :: s)))) 0) eqn:E.
  - apply Qeq_bool_iff in E. lra.
  - cbn [same_value same_number].
    rewrite !fold_left_sum.
    rewrite (sum_of_same (x :: s) (y :: s')) by (constructor; assumption).
    reflexivity.
Qed.

(** X8.  The statistics do not depend on the order in which the
    observations arrive: two samples that are permutations of each other
    reduce to bundles with the same ten fields. *)
Theorem reduce_sample_order_independent (l l' : list Q) :
  Permutation l l' -> same_bundle (reduce_sample l) (reduce_sample l').
Proof. apply reduce_sample_perm. Qed.

Lemma reduce_sample_order_independent_witness :
  same_bundle (reduce_sample [7; 2; 9; 4]) (reduce_sample [4; 9; 2; 7]).
Proof.
  apply reduce_sample_order_independent.
  apply Permutation_trans with [2; 7; 9; 4]; [apply perm_swap |].
  apply Permutation_trans with [2; 9; 7; 4];
    [apply perm_skip, perm_swap |].
  apply Permutation_trans with [9; 2; 7; 4]; [apply perm_swap |].
  apply Permutation_trans with [9; 2; 4; 7];
    [apply perm_skip, perm_skip, perm_swap |].
  apply Permutation_trans with [9; 4; 2; 7];
    [apply perm_skip, perm_swap |].
  apply perm_swap.
Defined.

(** ** The driver: which requests a run issues *)

Lemma batch_map net url method headers body (issued size : nat) :
  batch net url method headers body issued size
  = List.map (fun k => measureSingleRequest net k url method headers body)
      (seq issued size).
Proof.
  revert issued. induction size as [| size IH]; intros issued; simpl;
    [reflexivity | now rewrite IH].
Qed.

Lemma batches_from_map net url method headers body (r c : Z) (todo : nat)
    (i : Z) (latencies : list Q) :
  latencies
  = List.map (fun k => measureSingleRequest net k url method headers body)
      (seq 0 (length latencies)) ->
  batches_from net url method headers body r c todo i latencies
  = List.map (fun k => measureSingleRequest net k url method headers body)
      (seq 0 (length
                (batches_from net url method headers body r c todo i
                   latencies))).
Proof.
  revert i latencies. induction todo as [| todo IH]; intros i latencies Hl;
    simpl; [exact Hl |].
  apply IH.
  rewrite length_app, batch_length, seq_app, List.map_app, <- Hl.
  now rewrite batch_map.
Qed.

Lemma batches_from_ext net net' url url' method method' headers headers'
    body body' (r c : Z) (todo : nat) (i : Z) (latencies : list Q) :
  (forall k, measureSingleRequest net k url method headers body
             = measureSingleRequest net' k url' method' headers' body') ->
  batches_from net url method headers body r c todo i latencies
  = batches_from net' url' method' headers' body' r c todo i latencies.
Proof.
  intros Hext. revert i latencies.
  induction todo as [| todo IH]; intros i latencies; simpl; [reflexivity |].
  rewrite IH. do 2 f_equal. rewrite !batch_map.
  apply List.map_ext. intros k. apply Hext.
Qed.

(** X9.  With [requests >= 1] and [concurrency >= 1] the sample that is
    reduced holds the timings of the requests numbered [0] to
    [requests - 1], each issued exactly once with the same url, method,
    headers and body, in the order of issue. *)
Theorem measureRoute_issues_each_request_once (net : network)
    (url : string) (o : options) (r c : Z) :
  default 100%Z (requests o) = r -> default 10%Z (concurrency o) = c ->
  (1 <= r)%Z -> (1 <= c)%Z ->
  measureRoute net url o
  = Some (reduce_sample
            (List.map
               (fun k => measureSingleRequest net k url
                           (default "GET"%string (method o))
                           (headers o) (body o))
               (seq 0 (Z.to_nat r)))).
Proof.
  intros Er Ec Hr Hc.
  unfold measureRoute, batch_count. rewrite Er, Ec.
  destruct (Z.eqb_spec c 0) as [E0 | _]; [lia |].
  do 2 f_equal.
  rewrite batches_from_map by reflexivity.
  do 2 f_equal.
  pose proof (run_length net url (default "GET"%string (method o))
                (headers o) (body o) r c Hr Hc) as Hlen.
  lia.
Qed.

Lemma measureRoute_issues_each_request_once_witness :
  measureRoute example_network "http://localhost:3000" example_options
  = Some (reduce_sample
            (List.map
               (fun k => measureSingleRequest example_network k
                           "http://localhost:3000"
                           (default "GET"%string (method example_options))
                           (headers example_options) (body example_options))
               (seq 0 (Z.to_nat 7)))).
Proof.
  apply (measureRoute_issues_each_request_once example_network
           "http://localhost:3000" example_options 7 3);
    [reflexivity | reflexivity | lia | lia].
Defined.

(** X10.  A rejected request is indistinguishable from a resolved one:
    two networks that take the same time on every request give the same
    result, whichever requests each of them rejects. *)
Theorem measureRoute_ignores_rejections (net net' : network) (url : string)
    (o : options) :
  (forall k req, elapsed (net k req) = elapsed (net' k req)) ->
  measureRoute net url o = measureRoute net' url o.
Proof.
  intros Hel. unfold measureRoute.
  destruct (batch_count _ _) as [batches |]; [| reflexivity].
  do 2 f_equal. apply batches_from_ext.
  intros k. unfold measureSingleRequest. cbv zeta.
  rewrite Hel. now destruct (rejected _), (rejected _).
Qed.

Lemma measureRoute_ignores_rejections_witness :
  measureRoute example_network "http://localhost:3000" example_options
  = measureRoute
      (fun k req =>
         {| rejected := negb (rejected (example_network k req));
            elapsed := elapsed (example_network k req) |})
      "http://localhost:3000" example_options.
Proof.
  apply measureRoute_ignores_rejections. intros k req. reflexivity.
Defined.

(** X11.  For the methods [GET] and [HEAD] (and when no method is given,
    which means [GET]) the body of the options is never sent: the result
    is the same whatever body the caller supplies. *)
Theorem measureRoute_drops_body_of_GET_and_HEAD (net : network)
    (url : string) (r c : option Z) (m : option string)
    (h : option (list (string * string))) (b b' : option string) :
  m = None \/ m = Some "GET"%string \/ m = Some "HEAD"%string ->
  measureRoute net url
    {| requests := r; concurrency := c; method := m; headers := h;
       body := b |}
  = measureRoute net url
      {| requests := r; concurrency := c; method := m; headers := h;
         body := b' |}.
Proof.
  intros Hm. unfold measureRoute. simpl.
  destruct (batch_count _ _) as [batches |]; [| reflexivity].
  do 2 f_equal. apply batches_from_ext.
  intros k. unfold measureSingleRequest.
  destruct Hm as [-> | [-> | ->]]; reflexivity.
Qed.

Lemma measureRoute_drops_body_of_GET_and_HEAD_witness :
  measureRoute example_network "http://localhost:3000"
    {| requests := Some 4%Z; concurrency := Some 2%Z;
       method := Some "HEAD"%string; headers := None;
       body := Some "{}"%string |}
  = measureRoute example_network "http://localhost:3000"
      {| requests := Some 4%Z; concurrency := Some 2%Z;
         method := Some "HEAD"%string; headers := None; body := None |}.
Proof.
  apply measureRoute_drops_body_of_GET_and_HEAD. right. right. reflexivity.
Defined.

Lemma batches_from_negative_concurrency net url method headers body
    (r c : Z) (todo : nat) (i : Z) (latencies : list Q) :
  (c < 0)%Z ->
  batches_from net url method headers body r c todo i latencies = latencies.
Proof.
  intros Hc. revert i latencies.
  induction todo as [| todo IH]; intros i latencies; simpl; [reflexivity |].
  replace (Z.to_nat (Z.min c (r - i * c))) with 0%nat by lia.
  simpl. rewrite app_nil_r. apply IH.
Qed.

(** X12.  The degenerate options.  The call never returns exactly when
    [concurrency] is [0] and [requests] is positive.  With
    [requests <= 0], or with a negative [concurrency], it returns without
    issuing a request, and the result is the bundle of the empty sample
    (whose [min] and [max] are [undefined] and whose [mean] is [NaN]). *)
Theorem measureRoute_degenerate_options (net : network) (url : string)
    (o : options) (r c : Z) :
  default 100%Z (requests o) = r -> default 10%Z (concurrency o) = c ->
  (measureRoute net url o = None <-> c = 0%Z /\ (0 < r)%Z)
  /\ (((r <= 0)%Z \/ (c < 0)%Z) -> measureRoute net url o = Some empty_bundle).
Proof.
  intros Er Ec. unfold measureRoute, batch_count. rewrite Er, Ec.
  destruct (Z.eqb_spec c 0) as [E0 | Hc0].
  - destruct (Z.ltb_spec 0 r) as [Hr | Hr].
    + split; [split; [intros _; split; assumption | reflexivity] |].
      intros [H | H]; lia.
    + split; [split; [discriminate | intros [_ H]; lia] |].
      intros _. reflexivity.
  - split; [split; [discriminate | intros [H _]; contradiction] |].
    intros Hdeg. do 2 f_equal.
    destruct (Z_lt_ge_dec c 0) as [Hneg | Hpos].
    + rewrite batches_from_negative_concurrency by assumption.
      now rewrite reduce_sample_empty.
    + destruct Hdeg as [Hr | Hneg]; [| lia].
      destruct (ceiling_div_bounds r c) as [Hlo _]; [lia |].
      replace (Z.to_nat (Qceiling (inject_Z r / inject_Z c))) with 0%nat
        by nia.
      simpl. now rewrite reduce_sample_empty.
Qed.

Lemma measureRoute_degenerate_options_witness :
  measureRoute example_network "http://localhost:3000"
    {| requests := Some 5%Z; concurrency := Some (-2)%Z; method := None;
       headers := None; body := None |}
  = Some empty_bundle.
Proof.
  apply (proj2 (measureRoute_degenerate_options example_network
                  "http://localhost:3000"
                  {| requests := Some 5%Z; concurrency := Some (-2)%Z;
                     method := None; headers := None; body := None |}
                  5 (-2) eq_refl eq_refl)).
  right. lia.
Defined.

(** ** The comparator: soundness, pass criterion, composition *)

Lemma filter_exceeds_app (m : Measurements.t) (b1 b2 : Budget) :
  filter (fun e => exceeds (get_property m (fst e)) (snd e)) (b1 ++ b2)
  = filter (fun e => exceeds (get_property m (fst e)) (snd e)) b1
    ++ filter (fun e => exceeds (get_property m (fst e)) (snd e)) b2.
Proof. apply filter_app. Qed.

Lemma passed_iff_nil (m : Measurements.t) (budget : Budget) :
  passed (checkBudget m budget) = true
  <-> violations (checkBudget m budget) = [].
Proof.
  unfold checkBudget. simpl.
  destruct (fold_left (check_entry m) budget []); simpl;
    split; (reflexivity || discriminate).
Qed.

Lemma exceeds_is_number (v : value) (l : number) :
  exceeds v l -> exists x : number, v = VNumber x /\ x <> NaN.
Proof.
  destruct v as [[a | s |] | |]; simpl; try contradiction.
  - intros _. exists (Fin a). split; [reflexivity | discriminate].
  - intros _. exists (Inf s). split; [reflexivity | discriminate].
Qed.

(** X13.  Nothing is reported that the budget does not ask for: every
    violation carries a key of the budget with the limit given for it,
    its [actual] is the bundle's value under that key, that value is a
    number other than [NaN] and exceeds the limit; and there are at most
    as many violations as entries. *)
Theorem checkBudget_sound (m : Measurements.t) (budget : Budget) :
  (forall v : Violation,
      In v (violations (checkBudget m budget)) ->
      In (metric v, limit v) budget
      /\ actual v = get_property m (metric v)
      /\ exceeds (actual v) (limit v)
      /\ exists x : number, actual v = VNumber x /\ x <> NaN)
  /\ (length (violations (checkBudget m budget)) <= length budget)%nat.
Proof.
  split.
  - intros v Hv. apply in_violations in Hv.
    destruct Hv as [[name l] [Hin [Hex ->]]]. unfold violation_of. simpl.
    simpl in Hex.
    repeat split; try assumption. now apply (exceeds_is_number _ l).
  - rewrite checkBudget_filter, length_map. apply length_filter.
Qed.

(** X14.  The verdict passes exactly when no entry of the budget is
    exceeded by the bundle's value under its key. *)
Theorem checkBudget_passed_iff (m : Measurements.t) (budget : Budget) :
  passed (checkBudget m budget) = true
  <-> forall (name : string) (l : number),
        In (name, l) budget -> ~ exceeds (get_property m name) l.
Proof.
  rewrite passed_iff_nil. split.
  - intros Hnil name l Hin Hex.
    assert (Hv : In (violation_of m (name, l))
                    (violations (checkBudget m budget))).
    { apply in_violations. exists (name, l). repeat split; assumption. }
    rewrite Hnil in Hv. exact Hv.
  - intros Hno.
    destruct (violations (checkBudget m budget)) as [| v vs] eqn:E;
      [reflexivity |].
    assert (Hv : In v (violations (checkBudget m budget)))
      by (rewrite E; now left).
    apply in_violations in Hv. destruct Hv as [[name l] [Hin [Hex _]]].
    exfalso. exact (Hno name l Hin Hex).
Qed.

(** X15.  Checking a budget made of two parts is checking each part: the
    violations are those of the first part followed by those of the
    second, and the whole passes exactly when both parts pass. *)
Theorem checkBudget_app (m : Measurements.t) (b1 b2 : Budget) :
  violations (checkBudget m (b1 ++ b2))
  = violations (checkBudget m b1) ++ violations (checkBudget m b2)
  /\ passed (checkBudget m (b1 ++ b2))
     = passed (checkBudget m b1) && passed (checkBudget m b2).
Proof.
  assert (Hv : violations (checkBudget m (b1 ++ b2))
               = violations (checkBudget m b1)
                 ++ violations (checkBudget m b2)).
  { rewrite !checkBudget_filter, filter_exceeds_app. apply List.map_app. }
  split; [exact Hv |].
  change (passed (checkBudget m (b1 ++ b2)))
    with (Nat.eqb (length (violations (checkBudget m (b1 ++ b2)))) 0).
  change (passed (checkBudget m b1))
    with (Nat.eqb (length (violations (checkBudget m b1))) 0).
  change (passed (checkBudget m b2))
    with (Nat.eqb (length (violations (checkBudget m b2))) 0).
  rewrite Hv, length_app.
  destruct (length (violations (checkBudget m b1))),
    (length (violations (checkBudget m b2))); reflexivity.
Qed.

(** X16.  A run that issued no request passes every budget whose limits
    are finite and not negative: the percentiles, the median and the
    count of the empty bundle are [0], and its [min], [max] and [mean]
    ([undefined] and [NaN]) exceed nothing. *)
Theorem checkBudget_empty_bundle_passes (budget : Budget) :
  (forall (name : string) (l : number),
      In (name, l) budget -> exists q : Q, l = Fin q /\ 0 <= q) ->
  checkBudget empty_bundle budget = {| passed := true; violations := [] |}.
Proof.
  intros Hlim.
  assert (Hp : passed (checkBudget empty_bundle budget) = true).
  { apply checkBudget_passed_iff. intros name l Hin Hex.
    destruct (Hlim name l Hin) as [q [-> Hq]].
    unfold get_property, assoc, own_properties in Hex. simpl in Hex.
    change (inject_Z (Z.of_nat 0)) with 0 in Hex.
    repeat match type of Hex with
           | context [String.eqb name ?s] =>
               destruct (String.eqb name s); simpl in Hex;
               [first [contradiction | lra] |]
           end.
    exact Hex. }
  pose proof (proj1 (passed_iff_nil empty_bundle budget) Hp) as Hv.
  destruct (checkBudget empty_bundle budget) as [ps vs]. simpl in *.
  now subst.
Qed.

Lemma checkBudget_empty_bundle_passes_witness :
  checkBudget empty_bundle
    [("p95"%string, Fin 200); ("mean"%string, Fin 0); ("min"%string, Fin 0)]
  = {| passed := true; violations := [] |}.
Proof.
  apply checkBudget_empty_bundle_passes. intros name l Hin. simpl in Hin.
  destruct Hin as [E | [E | [E | []]]]; injection E as _ <-.
  - exists 200. split; [reflexivity | discriminate].
  - exists 0. split; [reflexivity | discriminate].
  - exists 0. split; [reflexivity | discriminate].
Defined.

(** ** The report formatter *)

Section ReportFacts.

Variable toFixed1 : number -> string.
Variable toString : number -> string.

Lemma to_fixed_is_Some (v : value) :
  is_Some (to_fixed toFixed1 v) <-> is_number v.
Proof.
  destruct v as [x | |]; simpl; split.
  - intros _. now exists x.
  - intros _. now exists (toFixed1 x).
  - intros [s Hs]. discriminate.
  - intros [x Hx]. discriminate.
  - intros [s Hs]. discriminate.
  - intros [x Hx]. discriminate.
Qed.

Lemma percentile_line_is_Some (m : Measurements.t) :
  is_Some (percentile_line toFixed1 m) <->
  is_number (Measurements.p50 m) /\ is_number (Measurements.p75 m)
  /\ is_number (Measurements.p90 m) /\ is_number (Measurements.p95 m)
  /\ is_number (Measurements.p99 m).
Proof.
  unfold percentile_line, is_number.
  destruct (Measurements.p50 m), (Measurements.p75 m), (Measurements.p90 m),
    (Measurements.p95 m), (Measurements.p99 m); simpl; split; intros H;
    try (repeat split; eexists; reflexivity);
    try (destruct H as [s Hs]; discriminate);
    destruct H as ([? H1] & [? H2] & [? H3] & [? H4] & [? H5]);
    discriminate.
Qed.

Lemma violation_line_is_Some (v : Violation) :
  is_Some (violation_line toFixed1 toString v) <-> is_number (actual v).
Proof.
  unfold violation_line, is_number.
  destruct (actual v); simpl; split; intros [? H];
    try discriminate; eexists; reflexivity.
Qed.

Lemma push_violations_closed (vs : list Violation) (lines : list string) :
  push_violations toFixed1 toString vs lines
  = match mapM (violation_line toFixed1 toString) vs with
    | Some vls => Some (lines ++ vls)
    | None => None
    end.
Proof.
  revert lines. induction vs as [| v vs IH]; intros lines; simpl.
  - now rewrite app_nil_r.
  - destruct (violation_line toFixed1 toString v) as [l |]; simpl;
      [| reflexivity].
    rewrite IH.
    destruct (mapM (violation_line toFixed1 toString) vs); simpl;
      [| reflexivity].
    now rewrite <- app_assoc.
Qed.

Lemma push_route_closed (lines : list string)
    (entry : string * RouteResult.t) :
  push_route toFixed1 toString lines entry
  = match route_lines toFixed1 toString entry with
    | Some block => Some (lines ++ block)
    | None => None
    end.
Proof.
  destruct entry as [route rr]. unfold push_route, route_lines. simpl.
  destruct (percentile_line toFixed1 (RouteResult.measurements rr)) as [pl |];
    [| reflexivity].
  rewrite push_violations_closed.
  destruct (mapM (violation_line toFixed1 toString)
              (violations (RouteResult.result rr))) as [vls |];
    [| reflexivity].
  f_equal. rewrite <- !app_assoc. reflexivity.
Qed.

Lemma push_routes_closed (entries : list (string * RouteResult.t))
    (lines : list string) :
  push_routes toFixed1 toString entries lines
  = match mapM (route_lines toFixed1 toString) entries with
    | Some blocks => Some (lines ++ concat blocks)
    | None => None
    end.
Proof.
  revert lines. induction entries as [| e entries IH]; intros lines; simpl.
  - now rewrite app_nil_r.
  - rewrite push_route_closed.
    destruct (route_lines toFixed1 toString e) as [block |]; simpl;
      [| reflexivity].
    rewrite IH.
    destruct (mapM (route_lines toFixed1 toString) entries); simpl;
      [| reflexivity].
    now rewrite <- app_assoc.
Qed.

Lemma route_lines_is_Some (entry : string * RouteResult.t) :
  is_Some (route_lines toFixed1 toString entry) <-> printable (snd entry).
Proof.
  unfold route_lines, printable.
  pose proof (percentile_line_is_Some (RouteResult.measurements (snd entry)))
    as Hp.
  pose proof (mapM_is_Some (violation_line toFixed1 toString)
                (violations (RouteResult.result (snd entry)))) as Hv.
  assert (Hv' : is_Some (mapM (violation_line toFixed1 toString)
                           (violations (RouteResult.result (snd entry))))
                <-> Forall (fun v => is_number (actual v))
                      (violations (RouteResult.result (snd entry)))).
  { rewrite Hv. apply Forall_iff. intros v. simpl.
    apply violation_line_is_Some. }
  destruct (percentile_line toFixed1 (RouteResult.measurements (snd entry)))
    as [pl |];
    destruct (mapM (violation_line toFixed1 toString)
                (violations (RouteResult.result (snd entry)))) as [vls |];
    split.
  - intros _. destruct (proj1 Hp (mk_is_Some _ _ eq_refl))
      as (H1 & H2 & H3 & H4 & H5).
    repeat (split; [assumption |]). apply Hv'. eexists; reflexivity.
  - intros _. eexists; reflexivity.
  - intros [s Hs]. discriminate.
  - intros (H1 & H2 & H3 & H4 & H5 & H6). apply Hv' in H6.
    destruct H6 as [s Hs]. discriminate.
  - intros [s Hs]. discriminate.
  - intros (H1 & H2 & H3 & H4 & H5 & H6).
    assert (Hn : is_Some (@None string)) by (apply Hp; repeat split; assumption).
    destruct Hn as [s Hs]. discriminate.
  - intros [s Hs]. discriminate.
  - intros (H1 & H2 & H3 & H4 & H5 & H6).
    assert (Hn : is_Some (@None string)) by (apply Hp; repeat split; assumption).
    destruct Hn as [s Hs]. discriminate.
Qed.

Lemma formatResults_is_Some (routeResults : list (string * RouteResult.t)) :
  is_Some (formatResults toFixed1 toString routeResults)
  <-> Forall (fun entry => printable (snd entry)) routeResults.
Proof.
  unfold formatResults. rewrite push_routes_closed.
  rewrite <- (Forall_iff (fun e => is_Some (route_lines toFixed1 toString e)))
    by (intros e; apply route_lines_is_Some).
  rewrite <- (mapM_is_Some (route_lines toFixed1 toString) routeResults).
  destruct (mapM (route_lines toFixed1 toString) routeResults); split;
    intros [s Hs]; try discriminate; eexists; reflexivity.
Qed.

End ReportFacts.

Lemma percentile_is_number (S : list Q) (p : Q) :
  0 <= p -> p <= 100 -> is_number (percentile S p).
Proof.
  intros H0 H1. destruct (percentile_finite S p H0 H1) as [q [E _]].
  exists (Fin q). exact E.
Qed.

Lemma measureRoute_percentiles_numbers (net : network) (url : string)
    (o : options) (m : Measurements.t) :
  measureRoute net url o = Some m ->
  is_number (Measurements.p50 m) /\ is_number (Measurements.p75 m)
  /\ is_number (Measurements.p90 m) /\ is_number (Measurements.p95 m)
  /\ is_number (Measurements.p99 m).
Proof.
  unfold measureRoute.
  destruct (batch_count _ _) as [batches |]; [| discriminate].
  intros E. injection E as <-. unfold reduce_sample. cbv zeta.
  cbn [Measurements.p50 Measurements.p75 Measurements.p90 Measurements.p95
       Measurements.p99].
  repeat split; apply percentile_is_number; lra.
Qed.

Lemma checkBudget_actual_numbers (m : Measurements.t) (b : Budget) :
  Forall (fun v => is_number (actual v)) (violations (checkBudget m b)).
Proof.
  apply List.Forall_forall. intros v Hv. apply in_violations in Hv.
  destruct Hv as [e [_ [Hex ->]]]. unfold violation_of. simpl.
  destruct (exceeds_is_number _ _ Hex) as [x [E _]]. now exists x.
Qed.

(** X17.  [formatResults] returns a report exactly when, for every
    route, the five percentiles and the [actual] of every violation are
    numbers; otherwise a [toFixed] call throws.  The fields [min], [max],
    [mean], [median] and [count] are never read. *)
Theorem formatResults_returns_iff (toFixed1 toString : number -> string)
    (routeResults : list (string * RouteResult.t)) :
  (exists s : string, formatResults toFixed1 toString routeResults = Some s)
  <-> forall (route : string) (rr : RouteResult.t),
        In (route, rr) routeResults -> printable rr.
Proof.
  pose proof (formatResults_is_Some toFixed1 toString routeResults) as H.
  rewrite List.Forall_forall in H. split.
  - intros Hs route rr Hin. apply (proj1 H Hs (route, rr) Hin).
  - intros Hp. apply H. intros [route rr] Hin. now apply (Hp route rr).
Qed.

(** X18.  The three steps compose: a report of routes whose measurements
    come from [measureRoute] and whose results come from [checkBudget]
    is always produced, the bundle of an empty sample included. *)
Theorem formatResults_of_measured_routes
    (toFixed1 toString : number -> string)
    (routeResults : list (string * RouteResult.t)) :
  (forall (route : string) (rr : RouteResult.t),
      In (route, rr) routeResults ->
      (exists (net : network) (url : string) (o : options),
          measureRoute net url o = Some (RouteResult.measurements rr))
      /\ RouteResult.result rr
         = checkBudget (RouteResult.measurements rr) (RouteResult.budget rr)) ->
  exists s : string, formatResults toFixed1 toString routeResults = Some s.
Proof.
  intros Hall.
  apply (formatResults_is_Some toFixed1 toString routeResults).
  apply List.Forall_forall. intros [route rr] Hin. simpl.
  destruct (Hall route rr Hin) as [[net [url [o Hm]]] Hr].
  destruct (measureRoute_percentiles_numbers net url o _ Hm)
    as (H1 & H2 & H3 & H4 & H5).
  unfold printable. repeat (split; [assumption |]).
  rewrite Hr. apply checkBudget_actual_numbers.
Qed.

Lemma formatResults_of_measured_routes_witness :
  exists s : string,
    formatResults example_format example_format
      [("/api/users"%string,
        {| RouteResult.measurements := empty_bundle;
           RouteResult.budget := [("p95"%string, Fin 200)];
           RouteResult.result :=
             checkBudget empty_bundle [("p95"%string, Fin 200)] |})]
    = Some s.
Proof.
  apply formatResults_of_measured_routes.
  intros route rr [E | []]. injection E as <- <-. simpl. split.
  - exists example_network, "http://localhost:3000"%string,
      {| requests := Some 0%Z; concurrency := None; method := None;
         headers := None; body := None |}.
    reflexivity.
  - reflexivity.
Defined.

Lemma percentile_line_text (toFixed1 : number -> string)
    (m : Measurements.t) (pl : string) :
  percentile_line toFixed1 m = Some pl ->
  exists x50 x75 x90 x95 x99 : number,
    Measurements.p50 m = VNumber x50
    /\ Measurements.p75 m = VNumber x75
    /\ Measurements.p90 m = VNumber x90
    /\ Measurements.p95 m = VNumber x95
    /\ Measurements.p99 m = VNumber x99
    /\ pl = ("  p50=" ++ toFixed1 x50 ++ "ms  p75=" ++ toFixed1 x75
             ++ "ms  p90=" ++ toFixed1 x90 ++ "ms  p95=" ++ toFixed1 x95
             ++ "ms  p99=" ++ toFixed1 x99 ++ "ms")%string.
Proof.
  unfold percentile_line, to_fixed.
  destruct (Measurements.p50 m) as [x50 | |]; try discriminate.
  destruct (Measurements.p75 m) as [x75 | |]; try discriminate.
  destruct (Measurements.p90 m) as [x90 | |]; try discriminate.
  destruct (Measurements.p95 m) as [x95 | |]; try discriminate.
  destruct (Measurements.p99 m) as [x99 | |]; try discriminate.
  intros [= <-]. exists x50, x75, x90, x95, x99.
  repeat (split; [reflexivity |]). reflexivity.
Qed.

Lemma violation_line_text (toFixed1 toString : number -> string)
    (v : Violation) (line : string) :
  violation_line toFixed1 toString v = Some line ->
  exists x : number,
    actual v = VNumber x
    /\ line = ("  VIOLATION: " ++ metric v ++ " = " ++ toFixed1 x
               ++ "ms (limit: " ++ toString (limit v) ++ "ms)")%string.
Proof.
  unfold violation_line, to_fixed.
  destruct (actual v) as [x | |]; try discriminate.
  intros [= <-]. exists x. split; reflexivity.
Qed.

Lemma route_lines_layout (toFixed1 toString : number -> string)
    (entry : string * RouteResult.t) (block : list string) :
  route_lines toFixed1 toString entry = Some block ->
  block_layout toFixed1 toString entry block.
Proof.
  unfold route_lines, block_layout. cbv zeta.
  destruct (percentile_line toFixed1 (RouteResult.measurements (snd entry)))
    as [pl |] eqn:Ep; [| discriminate].
  destruct (mapM (violation_line toFixed1 toString)
              (violations (RouteResult.result (snd entry))))
    as [vls |] eqn:Ev; [| discriminate].
  intros [= <-].
  destruct (percentile_line_text _ _ _ Ep)
    as (x50 & x75 & x90 & x95 & x99 & H50 & H75 & H90 & H95 & H99 & ->).
  exists x50, x75, x90, x95, x99, vls.
  repeat (split; [assumption |]). split.
  - apply mapM_Some in Ev.
    induction Ev as [| v line vs lines Hv _ IH]; constructor; [| exact IH].
    apply (violation_line_text toFixed1 toString). exact Hv.
  - unfold status_line.
    destruct (passed (RouteResult.result (snd entry))); reflexivity.
Qed.

(** X19.  The text of a report.  It is the three header lines (the
    title, a rule of 70 [=] signs, an empty line) followed by one block
    per route in the order of the entries, all joined by line feeds.  The
    block of a route is: [[PASS] route] or [[FAIL] route] according to
    [result.passed]; the line
    [  p50=Ams  p75=Bms  p90=Cms  p95=Dms  p99=Ems] where [A] to [E] are
    the five percentiles under [toFixed(1)]; for each violation in order
    the line [  VIOLATION: metric = Xms (limit: Lms)] with [X] its
    [actual] under [toFixed(1)] and [L] its limit; and an empty line.
    With no route the report is the title, the rule and a final line
    feed. *)
Theorem formatResults_layout (toFixed1 toString : number -> string)
    (routeResults : list (string * RouteResult.t)) (s : string) :
  formatResults toFixed1 toString routeResults = Some s ->
  exists blocks : list (list string),
    s = String.concat newline (report_header ++ concat blocks)
    /\ Forall2 (block_layout toFixed1 toString) routeResults blocks
    /\ (routeResults = [] ->
        s = String.append "API Performance Budget Report"
              (String.append newline
                 (String.append (repeat_string "=" 70) newline))).
Proof.
  unfold formatResults. rewrite push_routes_closed.
  destruct (mapM (route_lines toFixed1 toString) routeResults)
    as [blocks |] eqn:E; [| discriminate].
  intros Hs. injection Hs as <-. exists blocks.
  split; [reflexivity | split].
  - apply mapM_Some in E.
    induction E as [| entry block entries blocks Hb _ IH]; constructor;
      [| exact IH].
    apply route_lines_layout. exact Hb.
  - intros ->. simpl in E. injection E as <-. reflexivity.
Qed.

(** The report of [example_routes] is [example_report], made of the
    header and two blocks of this layout. *)
Lemma formatResults_layout_witness :
  formatResults example_format example_format example_routes
  = Some example_report
  /\ exists blocks : list (list string),
       example_report = String.concat newline (report_header ++ concat blocks)
       /\ Forall2 (block_layout example_format example_format)
            example_routes blocks
       /\ (example_routes = [] ->
           example_report
           = String.append "API Performance Budget Report"
               (String.append newline
                  (String.append (repeat_string "=" 70) newline))).
Proof.
  split; [reflexivity |].
  exact (formatResults_layout example_format example_format example_routes
           example_report eq_refl).
Defined.

(** X20.  For a route whose result comes from [checkBudget] and whose
    five percentiles are numbers, the block starts with [[PASS] route]
    and has no violation line when no entry of the budget is exceeded,
    and starts with [[FAIL] route] and has one violation line per
    violation otherwise. *)
Theorem report_status_matches_violations
    (toFixed1 toString : number -> string) (route : string)
    (m : Measurements.t) (b : Budget) :
  is_number (Measurements.p50 m) -> is_number (Measurements.p75 m) ->
  is_number (Measurements.p90 m) -> is_number (Measurements.p95 m) ->
  is_number (Measurements.p99 m) ->
  exists (label pl : string) (vls : list string),
    route_lines toFixed1 toString
      (route, {| RouteResult.measurements := m; RouteResult.budget := b;
                 RouteResult.result := checkBudget m b |})
    = Some ([label; pl] ++ vls ++ [EmptyString])
    /\ length vls = length (violations (checkBudget m b))
    /\ ((label = String.append "[PASS] " route /\ vls = []
         /\ passed (checkBudget m b) = true)
        \/ (label = String.append "[FAIL] " route /\ vls <> []
            /\ passed (checkBudget m b) = false)).
Proof.
  intros H1 H2 H3 H4 H5.
  set (rr := {| RouteResult.measurements := m; RouteResult.budget := b;
                RouteResult.result := checkBudget m b |}).
  assert (Hp : printable rr).
  { unfold printable, rr. simpl. repeat (split; [assumption |]).
    apply checkBudget_actual_numbers. }
  apply (route_lines_is_Some toFixed1 toString (route, rr)) in Hp.
  destruct Hp as [block Hb]. unfold route_lines, rr in Hb.
  cbn [fst snd RouteResult.measurements RouteResult.result] in Hb.
  destruct (percentile_line toFixed1 m) as [pl |] eqn:Ep; [| discriminate].
  destruct (mapM (violation_line toFixed1 toString)
              (violations (checkBudget m b))) as [vls |] eqn:Ev;
    [| discriminate].
  pose proof (length_mapM _ _ _ Ev) as Hlen.
  exists (status_line route rr), pl, vls.
  unfold route_lines, rr.
  cbn [fst snd RouteResult.measurements RouteResult.result].
  rewrite Ep, Ev.
  split; [reflexivity | split; [now symmetry |]].
  unfold status_line.
  cbn [RouteResult.result].
  destruct (passed (checkBudget m b)) eqn:P.
  - left. apply passed_iff_nil in P. rewrite P in Hlen.
    destruct vls; [| simpl in Hlen; discriminate Hlen].
    repeat split.
  - right. split; [reflexivity | split; [| reflexivity]].
    intros ->.
    assert (Hnil : violations (checkBudget m b) = []).
    { destruct (violations (checkBudget m b));
        [reflexivity | simpl in Hlen; discriminate Hlen]. }
    apply passed_iff_nil in Hnil. congruence.
Qed.

Lemma report_status_matches_violations_witness :
  exists (label pl : string) (vls : list string),
    route_lines example_format example_format
      ("/api/users"%string,
       {| RouteResult.measurements := empty_bundle;
          RouteResult.budget := [("p95"%string, Fin (-1))];
          RouteResult.result :=
            checkBudget empty_bundle [("p95"%string, Fin (-1))] |})
    = Some ([label; pl] ++ vls ++ [EmptyString])
    /\ length vls
       = length (violations
                   (checkBudget empty_bundle [("p95"%string, Fin (-1))]))
    /\ ((label = String.append "[PASS] " "/api/users" /\ vls = []
         /\ passed (checkBudget empty_bundle [("p95"%string, Fin (-1))])
            = true)
        \/ (label = String.append "[FAIL] " "/api/users" /\ vls <> []
            /\ passed (checkBudget empty_bundle [("p95"%string, Fin (-1))])
               = false)).
Proof.
  apply (report_status_matches_violations example_format example_format
           "/api/users" empty_bundle [("p95"%string, Fin (-1))]);
    eexists; reflexivity.
Defined.

(** ** The registry: copies of copies *)

Lemma defineBudget_insert (h h' : heap) (budgets copy : positive)
    (o : object) :
  h !! budgets = Some o -> defineBudget h budgets = (h', copy) ->
  h !! copy = None /\ h' = <[copy := o]> h.
Proof.
  intros Hb Hd.
  pose proof (defineBudget_fresh h budgets) as Hfresh.
  rewrite Hd in Hfresh. simpl in Hfresh.
  unfold defineBudget in Hd. rewrite Hb in Hd. simpl in Hd.
  injection Hd as Hh' Hcopy. split; [exact Hfresh |].
  now rewrite <- Hh', Hcopy.
Qed.

(** X21.  Copies compose: copying the returned map again allocates a
    third object, distinct from the first two, with the same entries in
    the same order, and leaves the original and the first copy as they
    were. *)
Theorem defineBudget_twice (h h1 h2 : heap) (budgets c1 c2 : positive)
    (o : object) :
  h !! budgets = Some o ->
  defineBudget h budgets = (h1, c1) ->
  defineBudget h1 c1 = (h2, c2) ->
  c1 <> budgets /\ c2 <> budgets /\ c2 <> c1
  /\ h2 !! budgets = Some o /\ h2 !! c1 = Some o /\ h2 !! c2 = Some o
  /\ forall l : positive, l <> c1 -> l <> c2 -> h2 !! l = h !! l.
Proof.
  intros Hb Hd1 Hd2.
  destruct (defineBudget_insert h h1 budgets c1 o Hb Hd1) as [Hf1 ->].
  assert (Hc1 : <[c1 := o]> h !! c1 = Some o) by apply lookup_insert_eq.
  destruct (defineBudget_insert _ h2 c1 c2 o Hc1 Hd2) as [Hf2 ->].
  assert (N1 : c1 <> budgets) by (intros ->; congruence).
  assert (N21 : c2 <> c1) by (intros ->; congruence).
  assert (N2 : c2 <> budgets).
  { intros ->. rewrite lookup_insert_ne in Hf2 by exact N1. congruence. }
  repeat split; try assumption.
  - rewrite !lookup_insert_ne by congruence. exact Hb.
  - rewrite lookup_insert_ne by congruence. exact Hc1.
  - apply lookup_insert_eq.
  - intros l Hl1 Hl2. now rewrite !lookup_insert_ne by congruence.
Qed.

Lemma defineBudget_twice_witness :
  fst (defineBudget (fst (defineBudget example_heap 1)) 4) !! 5%positive
  = Some [("/api/users"%string, PRef 2); ("/api/checkout"%string, PRef 3)].
Proof.
  assert (Hb : example_heap !! 1%positive
               = Some [("/api/users"%string, PRef 2);
                       ("/api/checkout"%string, PRef 3)])
    by reflexivity.
  assert (Hd1 : defineBudget example_heap 1
                = (fst (defineBudget example_heap 1), 4%positive))
    by reflexivity.
  assert (Hd2 : defineBudget (fst (defineBudget example_heap 1)) 4
                = (fst (defineBudget (fst (defineBudget example_heap 1)) 4),
                   5%positive))
    by reflexivity.
  pose proof (defineBudget_twice _ _ _ _ _ _ _ Hb Hd1 Hd2) as H.
  exact (proj1 (proj2 (proj2 (proj2 (proj2 (proj2 H)))))).
Defined.
